(** * Outbound delivery of the MS Teams middleware

    A shallow embedding of [MsteamsMiddleware.send] and
    [MsteamsMiddleware.processTurnError]
    (src/plugins/msteams/MsteamsMiddleware.ts).

    - Strings are [string].  [String.prototype.trim] belongs to the
      JavaScript runtime and is a member of the class [JsAny]: every
      statement holds for whatever white space the runtime trims.
    - [message.message] has the TypeScript type [any]: it is an abstract
      [Payload] with the two renderings the code applies to it, the template
      literal coercion and [JSON.stringify].
    - The mention objects of the caller live in a heap (a list indexed by
      address); a message holds the addresses of its mentions, so that the
      assignments [mention.mentioned.id = ...] are visible to every holder
      of the object.
    - [send] is an [async] function: it runs in a small state and exception
      monad over a [World] (log, transport calls, rejections nobody awaits,
      heap) and settles its promise as [Resolved] or [Rejected].
    - The logger is recorded at the levels error, warn and info together
      with the start and end marks; debug output is not recorded.  The
      logger itself does not throw.
    - [BotActivityHandler] and the Bot Framework adapter are collaborators
      whose code is outside this file: their operations are fields of the
      records [BotActivityHandler] and [BotFrameworkAdapter].  The lookups
      of the handler answer a channel or nothing and do not throw; a call
      to the adapter succeeds or fails with an [Error].  The part on the
      adapter that the constructor builds derives the answer of
      [continueConversation] from the turn pipeline of the SDK, whose
      [onTurnError] is [processTurnError]. *)

From Stdlib Require Import String Ascii List Bool Arith Lia.
From stdpp Require Import base list strings gmap.
Import ListNotations.
Local Open Scope string_scope.
Local Open Scope list_scope.

(** ** Strings of the JavaScript runtime *)

(** The line feed of the template literals [`${textMessage}\n${...}`]. *)
Definition LF : string := String (ascii_of_nat 10) EmptyString.

(** [s === ''] and [s !== '']. *)
Definition isEmptyString (s : string) : bool := String.eqb s "".
Definition nonEmptyString (s : string) : bool := negb (String.eqb s "").

(** What the code takes from the JavaScript runtime: the two renderings
    of a value of type [any], and [String.prototype.trim], of which only
    [''.trim() === ''] is used. *)
Class JsAny (Payload : Type) := {
  toString : Payload -> string;        (* `${v}` *)
  JSON_stringify : Payload -> string;  (* JSON.stringify(v) *)
  trim : string -> string;             (* s.trim() *)
  trim_empty : trim "" = ""
}.

(** ** Data model *)

Record IChannel := { id : string; name : string }.

Record Error := { error_name : string; error_message : string }.

Definition TypeError (msg : string) : Error :=
  {| error_name := "TypeError"; error_message := msg |}.

(** The absent class [BotActivityHandler], as far as [send] uses it. *)
Record BotActivityHandler := {
  findChannelByName : string -> option IChannel;
  findChannelById : string -> option IChannel;
  getServiceUrl : gmap string string;
  findServiceUrl : string -> string
}.

Inductive IMessageType :=
| PLAIN_TEXT
| MSTEAMS_ADAPTIVE_CARD
| OTHER_TYPE (tag : string).

Record ConversationAccount := {
  isGroup : option bool;
  conversation_id : string;
  conversationType : option string
}.

Record ConversationReference := {
  activityId : option string;
  ref_channelId : option string;
  ref_serviceUrl : option string;
  ref_conversation : option ConversationAccount
}.

Section Msteams.

Variable Payload : Type.
Context `{JsAny Payload}.

(** A mention is a [Record<string, any>]: the [mentioned] channel that
    [send] reads and writes, and its other properties. *)
Record IMention := {
  mentioned : IChannel;
  properties : list (string * Payload)
}.

(** [mentions] holds the addresses of the mention objects; it may be
    [undefined]. *)
Record IMessage := {
  type : IMessageType;
  message : Payload;
  mentions : option (list nat)
}.

Record Attachment := { contentType : string; content : Payload }.

(** [CardFactory.adaptiveCard] *)
Definition adaptiveCard (card : Payload) : Attachment :=
  {| contentType := "application/vnd.microsoft.card.adaptive"; content := card |}.

(** The properties of an activity that the middleware reads or writes; the
    first four are those of an inbound activity from which a conversation
    reference is taken. *)
Record Activity := {
  activity_id : option string;
  channelId : option string;
  serviceUrl : option string;
  conversation : option ConversationAccount;
  text : option string;
  attachments : option (list Attachment);
  entities : option (list IMention)
}.

Definition emptyActivity : Activity :=
  {| activity_id := None; channelId := None; serviceUrl := None;
     conversation := None; text := None; attachments := None;
     entities := None |}.

(** [MessageFactory.text(t)] *)
Definition MessageFactory_text (t : string) : Activity :=
  {| activity_id := None; channelId := None; serviceUrl := None;
     conversation := None; text := Some t; attachments := None;
     entities := None |}.

(** [MessageFactory.attachment(a)] *)
Definition MessageFactory_attachment (a : Attachment) : Activity :=
  {| activity_id := None; channelId := None; serviceUrl := None;
     conversation := None; text := None; attachments := Some [a];
     entities := None |}.

(** The object literal [{attachments: attachments}]. *)
Definition attachmentsActivity (l : list Attachment) : Activity :=
  {| activity_id := None; channelId := None; serviceUrl := None;
     conversation := None; text := None; attachments := Some l;
     entities := None |}.

(** The object literal [{text: textMessage, attachments: attachments}]. *)
Definition textAttachmentsActivity (t : string) (l : list Attachment) : Activity :=
  {| activity_id := None; channelId := None; serviceUrl := None;
     conversation := None; text := Some t; attachments := Some l;
     entities := None |}.

(** The assignment [a.entities = <Entity[]>mentions]. *)
Definition setEntities (a : Activity) (ms : list IMention) : Activity :=
  {| activity_id := activity_id a; channelId := channelId a;
     serviceUrl := serviceUrl a; conversation := conversation a;
     text := text a; attachments := attachments a; entities := Some ms |}.

(** [TurnContext.getConversationReference] *)
Definition getConversationReference (a : Activity) : ConversationReference :=
  {| activityId := activity_id a; ref_channelId := channelId a;
     ref_serviceUrl := serviceUrl a; ref_conversation := conversation a |}.

Record TurnContext := { turn_activity : Activity }.

Record ChatToolContext := { context : option TurnContext }.

Record IChatContextData := {
  chatToolContext : option ChatToolContext;
  channel : IChannel
}.

Record ConversationParameters := {
  params_isGroup : bool;
  channelData_channel : IChannel;
  params_activity : option Activity
}.

Record ConversationResourceResponse := { response_id : string }.

(** The Bot Framework adapter and the connector client it creates: what
    each call answers.  [None] is success for the calls without a value. *)
Record BotFrameworkAdapter := {
  createConnectorClient : string -> option Error;
  createConversation :
    string -> ConversationParameters -> Error + ConversationResourceResponse;
  continueConversation :
    ConversationReference -> option Activity -> option Error;
  sendTraceActivity : Error -> option Error;
  sendActivity : string -> option Error
}.

Record MsteamsMiddleware := {
  botFrameworkAdapter : BotFrameworkAdapter;
  botActivityHandler : BotActivityHandler
}.

(** ** The world a call runs in *)

Inductive Level := ERROR | WARN | INFO.

Inductive LogMessage :=
| UnhandledError (e : Error)
| ErrorStack (e : Error)
| UnsupportedType (m : IMessage)
| EmptyMessage
| SendConversationMessage
| SendProactiveMessage
| ServiceUrlCacheEmpty
| TargetChannelInfo (c : option IChannel)
| ChannelDoesNotExist (c : IChannel)
| ServiceUrlInfo (url : string)
| ServiceUrlDoesNotExist (c : IChannel).

Inductive LogEntry :=
| Start (fn : string)
| End (fn : string)
| Log (l : Level) (m : LogMessage).

Inductive TransportCall :=
| CreateConnectorClient (url : string)
| CreateConversation (url : string) (p : ConversationParameters)
| ContinueConversation (r : ConversationReference) (sent : option Activity)
| SendTraceActivity (e : Error)
| SendActivity (t : string).

Record World := {
  log : list LogEntry;
  calls : list TransportCall;
  unhandled : list Error;
  heap : list IMention
}.

Definition logged (e : LogEntry) (w : World) : World :=
  {| log := log w ++ [e]; calls := calls w; unhandled := unhandled w;
     heap := heap w |}.

Definition called (c : TransportCall) (w : World) : World :=
  {| log := log w; calls := calls w ++ [c]; unhandled := unhandled w;
     heap := heap w |}.

Definition rejectedUnawaited (e : Error) (w : World) : World :=
  {| log := log w; calls := calls w; unhandled := unhandled w ++ [e];
     heap := heap w |}.

Definition withHeap (h : list IMention) (w : World) : World :=
  {| log := log w; calls := calls w; unhandled := unhandled w; heap := h |}.

(** ** Completions and the monad of a function body *)

Inductive Completion (A : Type) :=
| Normal (a : A)
| ReturnVoid
| Throw (e : Error).

Arguments Normal {A} a.
Arguments ReturnVoid {A}.
Arguments Throw {A} e.

Definition M (A : Type) : Type := World -> Completion A * World.

Definition ret {A} (a : A) : M A := fun w => (Normal a, w).

Definition bind {A B} (m : M A) (k : A -> M B) : M B :=
  fun w =>
    match m w with
    | (Normal a, w') => k a w'
    | (ReturnVoid, w') => (ReturnVoid, w')
    | (Throw e, w') => (Throw e, w')
    end.

Notation "x <- m ;; k" := (bind m (fun x => k))
  (at level 100, m at level 99, k at level 200, right associativity).
Notation "m ;; k" := (bind m (fun _ => k))
  (at level 100, k at level 200, right associativity).

(** [return;] *)
Definition return_void {A} : M A := fun w => (ReturnVoid, w).

Definition throw {A} (e : Error) : M A := fun w => (Throw e, w).

Definition logger (e : LogEntry) : M unit := fun w => (Normal tt, logged e w).
Definition logger_error (m : LogMessage) : M unit := logger (Log ERROR m).
Definition logger_warn (m : LogMessage) : M unit := logger (Log WARN m).
Definition logger_info (m : LogMessage) : M unit := logger (Log INFO m).

(** A call to the transport whose promise is awaited (or which is
    synchronous): a failure is thrown into the caller. *)
Definition await (c : TransportCall) (answer : option Error) : M unit :=
  fun w =>
    match answer with
    | None => (Normal tt, called c w)
    | Some e => (Throw e, called c w)
    end.

Definition await_value {A} (c : TransportCall) (answer : Error + A) : M A :=
  fun w =>
    match answer with
    | inr a => (Normal a, called c w)
    | inl e => (Throw e, called c w)
    end.

(** A call whose promise is dropped: a failure rejects a promise that
    nobody holds. *)
Definition unawaited (c : TransportCall) (answer : option Error) : M unit :=
  fun w =>
    match answer with
    | None => (Normal tt, called c w)
    | Some e => (Normal tt, rejectedUnawaited e (called c w))
    end.

(** [try { body } catch (err) { handler err } finally { fin }] *)
Definition try_catch_finally (body : M unit) (handler : Error -> M unit)
    (fin : M unit) : M unit :=
  fun w =>
    let '(c, w1) :=
      match body w with
      | (Throw e, w') => handler e w'
      | r => r
      end in
    match fin w1 with
    | (Normal _, w2) => (c, w2)
    | r => r
    end.

(** How the promise of an [async] function settles. *)
Inductive Outcome := Resolved | Rejected (e : Error).

Definition async (body : M unit) : World -> Outcome * World :=
  fun w =>
    match body w with
    | (Throw e, w') => (Rejected e, w')
    | (_, w') => (Resolved, w')
    end.

(** ** [send]: the loop over the messages (lines 116-155) *)

(** The local variables [textMessage], [mentions] and [attachments] of
    [send].  [mentionsArray] holds addresses: the array shares the mention
    objects with the messages. *)
Record Locals := {
  textMessage : string;
  mentionsArray : list nat;
  attachmentsArray : list Attachment
}.

Definition initialLocals : Locals :=
  {| textMessage := ""; mentionsArray := []; attachmentsArray := [] |}.

Definition setMentionedId (mention : IMention) (i : string) : IMention :=
  {| mentioned := {| id := i; name := name (mentioned mention) |};
     properties := properties mention |}.

Definition setMentionedName (mention : IMention) (n : string) : IMention :=
  {| mentioned := {| id := id (mentioned mention); name := n |};
     properties := properties mention |}.

(** Lines 133-145: what the two branches assign to the mention object. *)
Definition resolveMention (handler : BotActivityHandler) (mention : IMention)
    : IMention :=
  if isEmptyString (trim (id (mentioned mention)))
     && nonEmptyString (trim (name (mentioned mention)))
  then
    match findChannelByName handler (name (mentioned mention)) with
    | Some channelInfo => setMentionedId mention (id channelInfo)
    | None => mention
    end
  else
    match findChannelById handler (id (mentioned mention)) with
    | Some channelInfo => setMentionedName mention (name channelInfo)
    | None => mention
    end.

(** Line 148: [mention.mentioned.id !== '' && mention.mentioned.name !== '']. *)
Definition bothFound (mention : IMention) : bool :=
  nonEmptyString (id (mentioned mention))
  && nonEmptyString (name (mentioned mention)).

(** One turn of the inner loop (lines 132-151) on the mention object at
    address [r]: the object is updated in place and its address is pushed
    when both halves are known.  An address outside the heap denotes no
    object and is skipped. *)
Definition forMention (handler : BotActivityHandler)
    (st : list nat * list IMention) (r : nat) : list nat * list IMention :=
  match st.2 !! r with
  | None => st
  | Some mention =>
      let mention' := resolveMention handler mention in
      (if bothFound mention' then st.1 ++ [r] else st.1, <[r := mention']> st.2)
  end.

Definition setTextMessage (l : Locals) (t : string) : Locals :=
  {| textMessage := t; mentionsArray := mentionsArray l;
     attachmentsArray := attachmentsArray l |}.

Definition pushAttachment (l : Locals) (a : Attachment) : Locals :=
  {| textMessage := textMessage l; mentionsArray := mentionsArray l;
     attachmentsArray := attachmentsArray l ++ [a] |}.

Definition setMentionsArray (l : Locals) (ms : list nat) : Locals :=
  {| textMessage := textMessage l; mentionsArray := ms;
     attachmentsArray := attachmentsArray l |}.

(** Lines 120-127: the part of one message. *)
Definition addPart (st : Locals * World) (m : IMessage) : Locals * World :=
  match type m with
  | PLAIN_TEXT =>
      (setTextMessage st.1 (textMessage st.1 ++ LF ++ toString (message m)), st.2)
  | MSTEAMS_ADAPTIVE_CARD =>
      (pushAttachment st.1 (adaptiveCard (message m)), st.2)
  | OTHER_TYPE _ =>
      (setTextMessage st.1 (textMessage st.1 ++ LF ++ JSON_stringify (message m)),
       logged (Log ERROR (UnsupportedType m)) st.2)
  end.

(** Lines 131-154: the mentions of one message. *)
Definition addMentions (handler : BotActivityHandler) (st : Locals * World)
    (m : IMessage) : Locals * World :=
  match mentions m with
  | Some refs =>
      if Nat.ltb 0 (length refs) then
        let r := fold_left (forMention handler) refs
                   (mentionsArray st.1, heap st.2) in
        (setMentionsArray st.1 r.1, withHeap r.2 st.2)
      else st
  | None => st
  end.

(** One turn of the outer loop (lines 119-155). *)
Definition forMessage (handler : BotActivityHandler) (st : Locals * World)
    (m : IMessage) : Locals * World :=
  addMentions handler (addPart st m) m.

(** The whole loop, as a computation that yields the locals. *)
Definition forMessages (handler : BotActivityHandler) (messages : list IMessage)
    : M Locals :=
  fun w =>
    let r := fold_left (forMessage handler) messages (initialLocals, w) in
    (Normal r.1, r.2).

(** ** [send]: the activity (lines 160-170) *)

(** [None] stands for the empty string that marks an empty message. *)
Definition composeActivity (textMessage : string) (attachments : list Attachment)
    : option Activity :=
  if nonEmptyString textMessage && Nat.eqb (length attachments) 0 then
    Some (MessageFactory_text textMessage)
  else if isEmptyString textMessage && Nat.ltb 0 (length attachments) then
    Some (attachmentsActivity attachments)
  else if nonEmptyString textMessage && Nat.ltb 0 (length attachments) then
    Some (textAttachmentsActivity textMessage attachments)
  else None.

(** ** [send]: the two activities of a proactive message *)

(** Lines 226-233. *)
Definition firstActivity (textMessage : string) (attachments : list Attachment)
    (mentions : list IMention) : option Activity :=
  if nonEmptyString textMessage then
    Some (setEntities (MessageFactory_text textMessage) mentions)
  else
    match attachments with
    | a :: _ => Some (setEntities (MessageFactory_attachment a) mentions)
    | [] => None
    end.

(** Lines 257-266; [tail] is [attachments.shift()]. *)
Definition restActivity (textMessage : string) (attachments : list Attachment)
    (mentions : list IMention) : option Activity :=
  if nonEmptyString textMessage && Nat.ltb 0 (length attachments) then
    Some (setEntities (attachmentsActivity attachments) mentions)
  else if isEmptyString textMessage && Nat.ltb 1 (length attachments) then
    Some (setEntities (attachmentsActivity (tail attachments)) mentions)
  else None.

(** The mention objects an array of addresses denotes. *)
Definition deref (h : list IMention) (refs : list nat) : list IMention :=
  omap (fun r => h !! r) refs.

Definition getHeap : M (list IMention) := fun w => (Normal (heap w), w).

(** Lines 175-176. *)
Definition liveContext (contextData : IChatContextData) : option TurnContext :=
  match chatToolContext contextData with
  | Some c => context c
  | None => None
  end.

(** Lines 199-203. *)
Definition findChannel (handler : BotActivityHandler) (c : IChannel)
    : option IChannel :=
  if isEmptyString (id c) && nonEmptyString (name c)
  then findChannelByName handler (name c)
  else findChannelById handler (id c).

(** Lines 269-276. *)
Definition threadReference (first : Activity) (r : ConversationResourceResponse)
    (url : string) : ConversationReference :=
  let conversationReference := getConversationReference first in
  {| activityId := activityId conversationReference;
     ref_channelId := ref_channelId conversationReference;
     ref_serviceUrl := Some url;
     ref_conversation :=
       Some {| isGroup := Some true; conversation_id := response_id r;
               conversationType := Some "channel" |} |}.

(** Lines 177-186. *)
Definition sendConversation (this : MsteamsMiddleware) (turn : TurnContext)
    (activity : Activity) : M unit :=
  logger_info SendConversationMessage ;;
  let conversationReference := getConversationReference (turn_activity turn) in
  await (ContinueConversation conversationReference (Some activity))
    (continueConversation (botFrameworkAdapter this) conversationReference
       (Some activity)).

(** Lines 188-280. *)
Definition sendProactive (this : MsteamsMiddleware)
    (contextData : IChatContextData) (l : Locals) : M unit :=
  let handler := botActivityHandler this in
  let adapter := botFrameworkAdapter this in
  logger_info SendProactiveMessage ;;
  (if Nat.eqb (size (getServiceUrl handler)) 0
   then logger_error ServiceUrlCacheEmpty ;; return_void
   else ret tt) ;;
  let channelInfo := findChannel handler (channel contextData) in
  logger_info (TargetChannelInfo channelInfo) ;;
  match channelInfo with
  | None =>
      logger_error (ChannelDoesNotExist (channel contextData)) ;; return_void
  | Some channelInfo =>
      let url := findServiceUrl handler (id channelInfo) in
      logger_info (ServiceUrlInfo url) ;;
      (if isEmptyString url
       then logger_error (ServiceUrlDoesNotExist channelInfo) ;; return_void
       else ret tt) ;;
      await (CreateConnectorClient url) (createConnectorClient adapter url) ;;
      h <- getHeap ;;
      let entities := deref h (mentionsArray l) in
      let first := firstActivity (textMessage l) (attachmentsArray l) entities in
      let conversationParameters :=
        {| params_isGroup := true; channelData_channel := channelInfo;
           params_activity := first |} in
      response <- await_value (CreateConversation url conversationParameters)
                    (createConversation adapter url conversationParameters) ;;
      let rest := restActivity (textMessage l) (attachmentsArray l) entities in
      conversationReference <-
        match first with
        | Some a => ret (threadReference a response url)
        | None => throw (TypeError "Cannot read properties of null")
        end ;;
      unawaited (ContinueConversation conversationReference rest)
        (continueConversation adapter conversationReference rest)
  end.

(** Lines 112-282: the body of the [try] block. *)
Definition sendBody (this : MsteamsMiddleware) (contextData : IChatContextData)
    (messages : list IMessage) : M unit :=
  l <- forMessages (botActivityHandler this) messages ;;
  match composeActivity (textMessage l) (attachmentsArray l) with
  | None => logger_warn EmptyMessage
  | Some activity =>
      match liveContext contextData with
      | Some turn => sendConversation this turn activity
      | None => sendProactive this contextData l
      end
  end.

(** [async send(contextData, messages): Promise<void>] *)
Definition send (this : MsteamsMiddleware) (contextData : IChatContextData)
    (messages : list IMessage) : World -> Outcome * World :=
  async
    (logger (Start "send") ;;
     try_catch_finally (sendBody this contextData messages)
       (fun err => logger_error (ErrorStack err))
       (logger (End "send"))).

(** ** [processTurnError] (lines 55-77) *)

Definition apology : string :=
  "The bot encountered an error or bug. To continue to run this bot, please fix the bot source code.".

Definition processTurnError (this : MsteamsMiddleware) (context : TurnContext)
    (error : Error) : World -> Outcome * World :=
  let adapter := botFrameworkAdapter this in
  async
    (logger (Start "processTurnError") ;;
     try_catch_finally
       (logger_error (UnhandledError error) ;;
        logger_error (ErrorStack error) ;;
        await (SendTraceActivity error) (sendTraceActivity adapter error) ;;
        await (SendActivity apology) (sendActivity adapter apology))
       (fun err => logger_error (ErrorStack err))
       (logger (End "processTurnError"))).

(** ** Vocabulary of the statements *)

(** The state of [send] when the loop over the messages has ended. *)
Definition composed (this : MsteamsMiddleware) (messages : list IMessage)
    (w : World) : Locals * World :=
  fold_left (forMessage (botActivityHandler this)) messages
    (initialLocals, logged (Start "send") w).

(** What one message contributes to the text: nothing for a card, the
    serialised payload for a type that is not supported. *)
Definition textPart (m : IMessage) : option string :=
  match type m with
  | PLAIN_TEXT => Some (toString (message m))
  | MSTEAMS_ADAPTIVE_CARD => None
  | OTHER_TYPE _ => Some (JSON_stringify (message m))
  end.

Definition textParts (messages : list IMessage) : list string :=
  omap textPart messages.

(** Every part preceded by a line feed. *)
Definition prefixedLines (parts : list string) : string :=
  fold_right (fun p acc => (LF ++ p ++ acc)%string) "" parts.

Definition cardPart (m : IMessage) : option Attachment :=
  match type m with
  | MSTEAMS_ADAPTIVE_CARD => Some (adaptiveCard (message m))
  | _ => None
  end.

Definition cards (messages : list IMessage) : list Attachment :=
  omap cardPart messages.

Definition unsupportedPart (m : IMessage) : option LogEntry :=
  match type m with
  | OTHER_TYPE _ => Some (Log ERROR (UnsupportedType m))
  | _ => None
  end.

Definition unsupportedErrors (messages : list IMessage) : list LogEntry :=
  omap unsupportedPart messages.

(** The addresses of the mention objects a request holds. *)
Definition mentionAddresses (messages : list IMessage) : list nat :=
  concat (map (fun m => default [] (mentions m)) messages).

(** ** Strings *)

Lemma append_assoc (s t u : string) :
  ((s ++ t) ++ u = s ++ (t ++ u))%string.
Proof.
  induction s as [|c s IH]; [reflexivity|].
  change (String c ((s ++ t) ++ u) = String c (s ++ (t ++ u)))%string.
  now rewrite IH.
Qed.

Lemma append_empty_r (s : string) : (s ++ "")%string = s.
Proof.
  induction s as [|c s IH]; [reflexivity|].
  change (String c (s ++ "")%string = String c s). now rewrite IH.
Qed.


Lemma isEmptyString_false (s : string) : isEmptyString s = false <-> s <> "".
Proof. unfold isEmptyString. apply String.eqb_neq. Qed.

Lemma nonEmptyString_true (s : string) : nonEmptyString s = true <-> s <> "".
Proof.
  unfold nonEmptyString. rewrite negb_true_iff. apply String.eqb_neq.
Qed.

Lemma nonEmptyString_false (s : string) : nonEmptyString s = false <-> s = "".
Proof.
  unfold nonEmptyString. rewrite negb_false_iff. apply String.eqb_eq.
Qed.

Lemma prefixedLines_joined (p : string) (parts : list string) :
  prefixedLines (p :: parts) = (LF ++ String.concat LF (p :: parts))%string.
Proof.
  revert p. induction parts as [|q parts IH]; intros p.
  - unfold prefixedLines. cbn [fold_right]. now rewrite append_empty_r.
  - change (prefixedLines (p :: q :: parts))
      with (LF ++ p ++ prefixedLines (q :: parts))%string.
    rewrite IH.
    change (String.concat LF (p :: q :: parts))
      with (p ++ LF ++ String.concat LF (q :: parts))%string.
    reflexivity.
Qed.

(** ** The loop over the messages *)

Section Loop.

Variable handler : BotActivityHandler.

Lemma resolveMention_properties (mention : IMention) :
  properties (resolveMention handler mention) = properties mention.
Proof.
  unfold resolveMention.
  destruct (_ && _);
    [destruct (findChannelByName _ _) | destruct (findChannelById _ _)];
    reflexivity.
Qed.

Lemma forMention_length st r :
  length (forMention handler st r).2 = length st.2.
Proof.
  unfold forMention. destruct (st.2 !! r); [|reflexivity].
  cbn. apply length_insert.
Qed.

Lemma forMention_other st r r' :
  r' <> r -> (forMention handler st r).2 !! r' = st.2 !! r'.
Proof.
  intros Hne. unfold forMention. destruct (st.2 !! r); [|reflexivity].
  cbn. apply list_lookup_insert_ne. congruence.
Qed.

Lemma forMention_properties st r r' m' :
  (forMention handler st r).2 !! r' = Some m' ->
  exists m, st.2 !! r' = Some m /\ properties m' = properties m.
Proof.
  unfold forMention. destruct (st.2 !! r) as [m|] eqn:Hr.
  - cbn. destruct (decide (r' = r)) as [->|Hne].
    + rewrite list_lookup_insert_eq by (eapply lookup_lt_Some; eauto).
      intros [= <-]. exists m. split; [assumption|].
      apply resolveMention_properties.
    + rewrite list_lookup_insert_ne by congruence. eauto.
  - eauto.
Qed.

Lemma mentions_length refs st :
  length (fold_left (forMention handler) refs st).2 = length st.2.
Proof.
  revert st. induction refs as [|r refs IH]; intros st; [reflexivity|].
  cbn. rewrite IH. apply forMention_length.
Qed.

Lemma mentions_other refs st r' :
  ~ In r' refs ->
  (fold_left (forMention handler) refs st).2 !! r' = st.2 !! r'.
Proof.
  revert st. induction refs as [|r refs IH]; intros st Hn; [reflexivity|].
  cbn. rewrite IH by (intros Hi; apply Hn; now right).
  apply forMention_other. intros ->. apply Hn. now left.
Qed.

Lemma mentions_properties refs st r' m' :
  (fold_left (forMention handler) refs st).2 !! r' = Some m' ->
  exists m, st.2 !! r' = Some m /\ properties m' = properties m.
Proof.
  revert st. induction refs as [|r refs IH]; intros st Hl; [eauto|].
  cbn in Hl. apply IH in Hl as (m1 & H1 & E1).
  apply forMention_properties in H1 as (m & H0 & E0).
  exists m. split; [assumption | congruence].
Qed.

(** What one turn of the outer loop does to each component of the state. *)

Lemma forMessage_text st m :
  textMessage (forMessage handler st m).1 =
  (textMessage st.1
   ++ match textPart m with Some t => LF ++ t | None => "" end)%string.
Proof.
  unfold forMessage, addMentions, addPart, textPart.
  destruct (mentions m) as [refs|]; [destruct (Nat.ltb 0 (length refs))|];
    destruct (type m); cbn; now rewrite ?append_empty_r.
Qed.

Lemma forMessage_attachments st m :
  attachmentsArray (forMessage handler st m).1 =
  attachmentsArray st.1 ++ option_list (cardPart m).
Proof.
  unfold forMessage, addMentions, addPart, cardPart.
  destruct (mentions m) as [refs|]; [destruct (Nat.ltb 0 (length refs))|];
    destruct (type m); cbn; now rewrite ?app_nil_r.
Qed.

Lemma forMessage_log st m :
  log (forMessage handler st m).2 = log st.2 ++ option_list (unsupportedPart m).
Proof.
  unfold forMessage, addMentions, addPart, unsupportedPart.
  destruct (mentions m) as [refs|]; [destruct (Nat.ltb 0 (length refs))|];
    destruct (type m); cbn; now rewrite ?app_nil_r.
Qed.

Lemma forMessage_calls st m :
  calls (forMessage handler st m).2 = calls st.2
  /\ unhandled (forMessage handler st m).2 = unhandled st.2.
Proof.
  unfold forMessage, addMentions, addPart.
  destruct (mentions m) as [refs|]; [destruct (Nat.ltb 0 (length refs))|];
    destruct (type m); cbn; auto.
Qed.

Lemma addPart_heap st m : heap (addPart st m).2 = heap st.2.
Proof. unfold addPart. destruct (type m); reflexivity. Qed.

Lemma forMessage_heap_length st m :
  length (heap (forMessage handler st m).2) = length (heap st.2).
Proof.
  unfold forMessage, addMentions.
  destruct (mentions m) as [refs|]; [destruct (Nat.ltb 0 (length refs))|];
    cbn; rewrite ?mentions_length; cbn; now rewrite addPart_heap.
Qed.

Lemma forMessage_heap_other st m r' :
  ~ In r' (default [] (mentions m)) ->
  heap (forMessage handler st m).2 !! r' = heap st.2 !! r'.
Proof.
  unfold forMessage, addMentions.
  destruct (mentions m) as [refs|]; [destruct (Nat.ltb 0 (length refs))|];
    cbn; intros Hn; rewrite ?mentions_other by assumption; cbn;
    now rewrite addPart_heap.
Qed.

Lemma forMessage_heap_properties st m r' m' :
  heap (forMessage handler st m).2 !! r' = Some m' ->
  exists m0, heap st.2 !! r' = Some m0 /\ properties m' = properties m0.
Proof.
  unfold forMessage, addMentions.
  destruct (mentions m) as [refs|]; [destruct (Nat.ltb 0 (length refs))|];
    cbn; intros Hl.
  - apply mentions_properties in Hl. cbn in Hl. now rewrite addPart_heap in Hl.
  - rewrite addPart_heap in Hl. eauto.
  - rewrite addPart_heap in Hl. eauto.
Qed.

End Loop.

Section Folded.

Variable handler : BotActivityHandler.

Lemma loop_text messages st :
  textMessage (fold_left (forMessage handler) messages st).1 =
  (textMessage st.1 ++ prefixedLines (textParts messages))%string.
Proof.
  revert st. induction messages as [|m ms IH]; intros st.
  - cbn. now rewrite append_empty_r.
  - cbn [fold_left]. rewrite IH, forMessage_text, append_assoc. f_equal.
    unfold textParts. cbn [omap list_omap].
    destruct (textPart m); [|reflexivity].
    unfold prefixedLines. cbn [fold_right]. now rewrite append_assoc.
Qed.

Lemma loop_attachments messages st :
  attachmentsArray (fold_left (forMessage handler) messages st).1 =
  attachmentsArray st.1 ++ cards messages.
Proof.
  revert st. induction messages as [|m ms IH]; intros st.
  - cbn. now rewrite app_nil_r.
  - cbn [fold_left]. rewrite IH, forMessage_attachments, <- app_assoc.
    f_equal. unfold cards. cbn [omap list_omap].
    destruct (cardPart m); reflexivity.
Qed.

Lemma loop_log messages st :
  log (fold_left (forMessage handler) messages st).2 =
  log st.2 ++ unsupportedErrors messages.
Proof.
  revert st. induction messages as [|m ms IH]; intros st.
  - cbn. now rewrite app_nil_r.
  - cbn [fold_left]. rewrite IH, forMessage_log, <- app_assoc.
    f_equal. unfold unsupportedErrors. cbn [omap list_omap].
    destruct (unsupportedPart m); reflexivity.
Qed.

Lemma loop_calls messages st :
  calls (fold_left (forMessage handler) messages st).2 = calls st.2
  /\ unhandled (fold_left (forMessage handler) messages st).2 = unhandled st.2.
Proof.
  revert st. induction messages as [|m ms IH]; intros st; [now split|].
  cbn [fold_left].
  destruct (IH (forMessage handler st m)) as [-> ->].
  apply forMessage_calls.
Qed.

Lemma loop_heap_length messages st :
  length (heap (fold_left (forMessage handler) messages st).2) =
  length (heap st.2).
Proof.
  revert st. induction messages as [|m ms IH]; intros st; [reflexivity|].
  cbn [fold_left]. rewrite IH. apply forMessage_heap_length.
Qed.

Lemma loop_heap_other messages st r :
  ~ In r (mentionAddresses messages) ->
  heap (fold_left (forMessage handler) messages st).2 !! r = heap st.2 !! r.
Proof.
  revert st. induction messages as [|m ms IH]; intros st Hn; [reflexivity|].
  unfold mentionAddresses in Hn. cbn [map concat] in Hn.
  rewrite in_app_iff in Hn.
  cbn [fold_left]. rewrite IH by (intros Hi; apply Hn; now right).
  apply forMessage_heap_other. intros Hi. apply Hn. now left.
Qed.

Lemma loop_heap_properties messages st r m' :
  heap (fold_left (forMessage handler) messages st).2 !! r = Some m' ->
  exists m, heap st.2 !! r = Some m /\ properties m' = properties m.
Proof.
  revert st. induction messages as [|m ms IH]; intros st Hl; [eauto|].
  cbn [fold_left] in Hl. apply IH in Hl as (m1 & H1 & E1).
  apply forMessage_heap_properties in H1 as (m0 & H0 & E0).
  exists m0. split; [assumption | congruence].
Qed.

End Folded.

Lemma composed_text this messages w :
  textMessage (composed this messages w).1 = prefixedLines (textParts messages).
Proof. unfold composed. now rewrite loop_text. Qed.

Lemma composed_attachments this messages w :
  attachmentsArray (composed this messages w).1 = cards messages.
Proof. unfold composed. now rewrite loop_attachments. Qed.

Lemma composed_log this messages w :
  log (composed this messages w).2 =
  log w ++ Start "send" :: unsupportedErrors messages.
Proof.
  unfold composed. rewrite loop_log. cbn. now rewrite <- app_assoc.
Qed.

Lemma composed_calls this messages w :
  calls (composed this messages w).2 = calls w
  /\ unhandled (composed this messages w).2 = unhandled w.
Proof. unfold composed. apply loop_calls. Qed.

(** ** The paths of [send] *)

Ltac run_send :=
  unfold send, async, try_catch_finally, sendBody, sendProactive,
    sendConversation, forMessages, bind, ret, return_void, throw, await,
    await_value, unawaited, getHeap, logger_info, logger_error, logger_warn,
    logger;
  match goal with
  | |- context [fold_left (forMessage (botActivityHandler ?t)) ?ms
                  (initialLocals, logged (Start "send") ?w)] =>
      fold (composed t ms w)
  end.

Section Paths.

Variable this : MsteamsMiddleware.
Variable contextData : IChatContextData.
Variable messages : list IMessage.
Variable w : World.

Let handler := botActivityHandler this.
Let adapter := botFrameworkAdapter this.
Let l := (composed this messages w).1.
Let w1 := (composed this messages w).2.

(** Nothing to send (lines 167-170 and 174). *)
Lemma send_empty :
  composeActivity (textMessage l) (attachmentsArray l) = None ->
  send this contextData messages w =
  (Resolved, logged (End "send") (logged (Log WARN EmptyMessage) w1)).
Proof. intros Hc. run_send. fold l. now rewrite Hc. Qed.


(** The cached service URL map is empty (lines 191-195). *)
Lemma send_cache_empty activity :
  composeActivity (textMessage l) (attachmentsArray l) = Some activity ->
  liveContext contextData = None ->
  size (getServiceUrl handler) = 0 ->
  send this contextData messages w =
  (Resolved,
   logged (End "send")
     (logged (Log ERROR ServiceUrlCacheEmpty)
        (logged (Log INFO SendProactiveMessage) w1))).
Proof.
  intros Hc Hl Hs. run_send. fold l handler. now rewrite Hc, Hl, Hs.
Qed.

(** The channel is not in the directory (lines 198-208). *)
Lemma send_channel_not_found activity :
  composeActivity (textMessage l) (attachmentsArray l) = Some activity ->
  liveContext contextData = None ->
  size (getServiceUrl handler) <> 0 ->
  findChannel handler (channel contextData) = None ->
  send this contextData messages w =
  (Resolved,
   logged (End "send")
     (logged (Log ERROR (ChannelDoesNotExist (channel contextData)))
        (logged (Log INFO (TargetChannelInfo None))
           (logged (Log INFO SendProactiveMessage) w1)))).
Proof.
  intros Hc Hl Hs Hf. run_send. fold l handler. rewrite Hc, Hl, Hf.
  apply Nat.eqb_neq in Hs. now rewrite Hs.
Qed.

(** No service URL for the channel (lines 211-216). *)
Lemma send_url_not_found activity channelInfo :
  composeActivity (textMessage l) (attachmentsArray l) = Some activity ->
  liveContext contextData = None ->
  size (getServiceUrl handler) <> 0 ->
  findChannel handler (channel contextData) = Some channelInfo ->
  findServiceUrl handler (id channelInfo) = "" ->
  send this contextData messages w =
  (Resolved,
   logged (End "send")
     (logged (Log ERROR (ServiceUrlDoesNotExist channelInfo))
        (logged (Log INFO (ServiceUrlInfo ""))
           (logged (Log INFO (TargetChannelInfo (Some channelInfo)))
              (logged (Log INFO SendProactiveMessage) w1))))).
Proof.
  intros Hc Hl Hs Hf Hu. run_send. fold l handler. rewrite Hc, Hl, Hf, Hu.
  apply Nat.eqb_neq in Hs. now rewrite Hs.
Qed.

(** The conversation is created (lines 219-280). *)
Lemma send_proactive activity channelInfo first response :
  composeActivity (textMessage l) (attachmentsArray l) = Some activity ->
  liveContext contextData = None ->
  size (getServiceUrl handler) <> 0 ->
  findChannel handler (channel contextData) = Some channelInfo ->
  let url := findServiceUrl handler (id channelInfo) in
  let entities := deref (heap w1) (mentionsArray l) in
  let parameters :=
    {| params_isGroup := true; channelData_channel := channelInfo;
       params_activity := Some first |} in
  let rest := restActivity (textMessage l) (attachmentsArray l) entities in
  let r := threadReference first response url in
  let w2 :=
    called (ContinueConversation r rest)
      (called (CreateConversation url parameters)
         (called (CreateConnectorClient url)
            (logged (Log INFO (ServiceUrlInfo url))
               (logged (Log INFO (TargetChannelInfo (Some channelInfo)))
                  (logged (Log INFO SendProactiveMessage) w1))))) in
  url <> "" ->
  createConnectorClient adapter url = None ->
  firstActivity (textMessage l) (attachmentsArray l) entities = Some first ->
  createConversation adapter url parameters = inr response ->
  send this contextData messages w =
  (Resolved,
   logged (End "send")
     match continueConversation adapter r rest with
     | None => w2
     | Some e => rejectedUnawaited e w2
     end).
Proof.
  intros Hc Hl Hs Hf url entities parameters rest r w2 Hu Ha H1 Hr.
  run_send. fold l handler adapter. rewrite Hc, Hl, Hf. fold url.
  apply Nat.eqb_neq in Hs. rewrite Hs.
  apply isEmptyString_false in Hu. rewrite Hu. rewrite Ha.
  cbn [heap logged called]. fold w1. fold entities. rewrite H1.
  fold parameters. rewrite Hr. fold rest. fold r.
  destruct (continueConversation adapter r rest); reflexivity.
Qed.

(** Creating the conversation fails (line 254): the error is thrown into
    the [try] block and logged by the [catch] block. *)
Lemma send_creation_fails activity channelInfo e :
  composeActivity (textMessage l) (attachmentsArray l) = Some activity ->
  liveContext contextData = None ->
  size (getServiceUrl handler) <> 0 ->
  findChannel handler (channel contextData) = Some channelInfo ->
  let url := findServiceUrl handler (id channelInfo) in
  let entities := deref (heap w1) (mentionsArray l) in
  let parameters :=
    {| params_isGroup := true; channelData_channel := channelInfo;
       params_activity :=
         firstActivity (textMessage l) (attachmentsArray l) entities |} in
  url <> "" ->
  createConnectorClient adapter url = None ->
  createConversation adapter url parameters = inl e ->
  send this contextData messages w =
  (Resolved,
   logged (End "send")
     (logged (Log ERROR (ErrorStack e))
        (called (CreateConversation url parameters)
           (called (CreateConnectorClient url)
              (logged (Log INFO (ServiceUrlInfo url))
                 (logged (Log INFO (TargetChannelInfo (Some channelInfo)))
                    (logged (Log INFO SendProactiveMessage) w1))))))).
Proof.
  intros Hc Hl Hs Hf url entities parameters Hu Ha Hr.
  run_send. fold l handler adapter. rewrite Hc, Hl, Hf. fold url.
  apply Nat.eqb_neq in Hs. rewrite Hs.
  apply isEmptyString_false in Hu. rewrite Hu. rewrite Ha.
  cbn [heap logged called]. fold w1. fold entities.
  fold parameters. now rewrite Hr.
Qed.

End Paths.

(** The promise of [send] never rejects: what the body throws is handed
    to the [catch] block, which logs it. *)
Lemma send_never_rejects this contextData messages w :
  (send this contextData messages w).1 = Resolved.
Proof.
  unfold send, async, try_catch_finally, bind, logger, logger_error.
  destruct (sendBody this contextData messages _) as [[?| |e] w']; reflexivity.
Qed.

Lemma processTurnError_never_rejects this context error w :
  (processTurnError this context error w).1 = Resolved.
Proof.
  unfold processTurnError, async, try_catch_finally, bind, await,
    logger_error, logger.
  destruct (sendTraceActivity _ _); [reflexivity|].
  destruct (sendActivity _ _); reflexivity.
Qed.

(** ** The units *)

Lemma composeActivity_None (t : string) (a : list Attachment) :
  composeActivity t a = None <-> t = "" /\ a = [].
Proof.
  unfold composeActivity, nonEmptyString, isEmptyString.
  destruct (String.eqb_spec t ""), a; cbn; split;
    try discriminate; try tauto; intros [? ?]; congruence.
Qed.

Lemma composeActivity_Some (t : string) (a : list Attachment) :
  t <> "" \/ a <> [] -> exists activity, composeActivity t a = Some activity.
Proof.
  intros Hn. destruct (composeActivity t a) eqn:E; [eauto|].
  apply composeActivity_None in E. tauto.
Qed.

Lemma prefixedLines_empty (parts : list string) :
  prefixedLines parts = "" -> parts = [].
Proof. destruct parts; [reflexivity | discriminate]. Qed.

Lemma unsupportedErrors_no_text (messages : list IMessage) :
  textParts messages = [] -> unsupportedErrors messages = [].
Proof.
  unfold textParts, unsupportedErrors.
  induction messages as [|m ms IH]; [reflexivity|].
  cbn [omap list_omap]. unfold textPart at 1, unsupportedPart at 1.
  destruct (type m); try discriminate. exact IH.
Qed.

Lemma firstActivity_Some (t : string) (a : list Attachment)
    (ms : list IMention) :
  t <> "" \/ a <> [] -> exists first, firstActivity t a ms = Some first.
Proof.
  unfold firstActivity, nonEmptyString.
  destruct (String.eqb_spec t ""), a; cbn; eauto. intros [?|?]; congruence.
Qed.

(** C1.  Proactive splitting.  From the text [txt], the attachments [atts]
    and the resolved mentions [ms] of a proactive message, lines 226-233
    and 257-266 build two activities when there are both text and
    attachments, or no text and more than one attachment: the first is the
    text if there is text and otherwise the first attachment, the rest
    holds the attachments the first does not hold, and both carry the
    mentions.  With one attachment and no text there is no rest.  The
    request of two cards [X] and [Y] yields a first activity with [X] alone
    and a rest with [Y] alone.  A proactive send that is not refused and
    whose conversation is created hands the first activity to the creation
    of the conversation and the rest to its resumption. *)
Theorem proactive_split (txt : string) (atts : list Attachment)
    (ms : list IMention) :
  (txt <> "" -> atts <> [] ->
   exists first rest,
     firstActivity txt atts ms = Some first
     /\ restActivity txt atts ms = Some rest
     /\ text first = Some txt /\ attachments first = None
     /\ entities first = Some ms
     /\ text rest = None /\ attachments rest = Some atts
     /\ entities rest = Some ms)
  /\ (forall a b more, txt = "" -> atts = a :: b :: more ->
      exists first rest,
        firstActivity txt atts ms = Some first
        /\ restActivity txt atts ms = Some rest
        /\ text first = None /\ attachments first = Some [a]
        /\ entities first = Some ms
        /\ text rest = None /\ attachments rest = Some (b :: more)
        /\ entities rest = Some ms)
  /\ (forall a, txt = "" -> atts = [a] ->
      exists first,
        firstActivity txt atts ms = Some first
        /\ restActivity txt atts ms = None
        /\ text first = None /\ attachments first = Some [a]
        /\ entities first = Some ms)
  /\ (forall this X Y w,
      let request :=
        [ {| type := MSTEAMS_ADAPTIVE_CARD; message := X; mentions := None |};
          {| type := MSTEAMS_ADAPTIVE_CARD; message := Y; mentions := None |} ] in
      let l := (composed this request w).1 in
      let found := deref (heap (composed this request w).2) (mentionsArray l) in
      firstActivity (textMessage l) (attachmentsArray l) found =
        Some (setEntities (MessageFactory_attachment (adaptiveCard X)) [])
      /\ restActivity (textMessage l) (attachmentsArray l) found =
        Some (setEntities (attachmentsActivity [adaptiveCard Y]) []))
  /\ (forall this contextData messages w channelInfo response,
      let handler := botActivityHandler this in
      let adapter := botFrameworkAdapter this in
      let l := (composed this messages w).1 in
      let found := deref (heap (composed this messages w).2) (mentionsArray l) in
      let url := findServiceUrl handler (id channelInfo) in
      let parameters :=
        {| params_isGroup := true; channelData_channel := channelInfo;
           params_activity :=
             firstActivity (textMessage l) (attachmentsArray l) found |} in
      liveContext contextData = None ->
      textMessage l <> "" \/ attachmentsArray l <> [] ->
      size (getServiceUrl handler) <> 0 ->
      findChannel handler (channel contextData) = Some channelInfo ->
      url <> "" ->
      createConnectorClient adapter url = None ->
      createConversation adapter url parameters = inr response ->
      exists first,
        firstActivity (textMessage l) (attachmentsArray l) found = Some first
        /\ calls (send this contextData messages w).2 =
           calls w ++
           [CreateConnectorClient url;
            CreateConversation url parameters;
            ContinueConversation (threadReference first response url)
              (restActivity (textMessage l) (attachmentsArray l) found)]).
Proof.
  split; [|split; [|split; [|split]]].
  - intros Ht Ha. unfold firstActivity, restActivity.
    apply nonEmptyString_true in Ht. rewrite Ht.
    destruct atts as [|a more]; [congruence|]. cbn.
    eexists _, _. repeat split.
  - intros a b more -> ->. eexists _, _. repeat split.
  - intros a -> ->. eexists. repeat split.
  - intros this X Y w request l found. subst found l request.
    unfold composed. cbn. split; reflexivity.
  - intros this contextData messages w channelInfo response handler adapter l
      found url parameters Hl Hn Hs Hf Hu Ha Hr.
    destruct (composeActivity_Some _ _ Hn) as [activity Hc].
    destruct (firstActivity_Some _ _ found Hn) as [first H1].
    exists first. split; [exact H1|].
    subst parameters. rewrite H1 in Hr.
    rewrite (send_proactive this contextData messages w activity channelInfo
               first response Hc Hl Hs Hf Hu Ha H1 Hr).
    rewrite H1. fold url.
    destruct (composed_calls this messages w) as [Hcalls _].
    destruct (continueConversation _ _ _);
      cbn [calls logged called rejectedUnawaited snd];
      rewrite Hcalls, <- !app_assoc; reflexivity.
Qed.

(** C5.  Unit construction is by cases on the accumulated text and
    attachments: text alone gives the unit with the text, attachments alone
    the unit with the attachments, both the unit with both, and neither
    gives no unit: [send] then logs one warning, makes no transport call
    and completes. *)
Theorem unit_by_cases (this : MsteamsMiddleware)
    (contextData : IChatContextData) (messages : list IMessage) (w : World) :
  let l := (composed this messages w).1 in
  let unit := composeActivity (textMessage l) (attachmentsArray l) in
  (textMessage l <> "" -> attachmentsArray l = [] ->
   exists a, unit = Some a /\ text a = Some (textMessage l)
     /\ attachments a = None /\ entities a = None)
  /\ (textMessage l = "" -> attachmentsArray l <> [] ->
      exists a, unit = Some a /\ text a = None
        /\ attachments a = Some (attachmentsArray l) /\ entities a = None)
  /\ (textMessage l <> "" -> attachmentsArray l <> [] ->
      exists a, unit = Some a /\ text a = Some (textMessage l)
        /\ attachments a = Some (attachmentsArray l) /\ entities a = None)
  /\ (textMessage l = "" -> attachmentsArray l = [] ->
      unit = None
      /\ (send this contextData messages w).1 = Resolved
      /\ log (send this contextData messages w).2 =
           log w ++ [Start "send"; Log WARN EmptyMessage; End "send"]
      /\ calls (send this contextData messages w).2 = calls w
      /\ unhandled (send this contextData messages w).2 = unhandled w).
Proof.
  intros l unit. subst unit.
  unfold composeActivity, nonEmptyString, isEmptyString.
  split; [|split; [|split]].
  - intros Ht Ha. rewrite Ha.
    destruct (String.eqb_spec (textMessage l) ""); [congruence|]. cbn.
    eexists. repeat split.
  - intros Ht Ha. rewrite Ht. destruct (attachmentsArray l); [congruence|].
    cbn. eexists. repeat split.
  - intros Ht Ha.
    destruct (String.eqb_spec (textMessage l) ""); [congruence|].
    destruct (attachmentsArray l); [congruence|]. cbn.
    eexists. repeat split.
  - intros Ht Ha.
    assert (Hc : composeActivity (textMessage l) (attachmentsArray l) = None)
      by (apply composeActivity_None; now split).
    split; [exact Hc|].
    rewrite (send_empty this contextData messages w Hc). cbn.
    destruct (composed_calls this messages w) as [-> ->].
    rewrite composed_log.
    subst l. rewrite composed_text in Ht. apply prefixedLines_empty in Ht.
    rewrite (unsupportedErrors_no_text _ Ht).
    repeat split. now rewrite <- !app_assoc.
Qed.

(** C6 (as amended).  The text is accumulated from the parts in order, each
    preceded by a line feed: it is the empty string when no part carries
    text, and otherwise a line feed followed by the parts joined by line
    feeds.  A part is the payload of a plain text message or the JSON
    serialisation of the payload of a message whose type is not supported;
    cards contribute nothing.  The text depends on the messages alone. *)
Theorem text_accumulation (this : MsteamsMiddleware) (messages : list IMessage)
    (w : World) :
  textMessage (composed this messages w).1 = prefixedLines (textParts messages)
  /\ (textParts messages = [] -> textMessage (composed this messages w).1 = "")
  /\ (textParts messages <> [] ->
      textMessage (composed this messages w).1 =
      (LF ++ String.concat LF (textParts messages))%string).
Proof.
  rewrite composed_text. split; [reflexivity|]. split.
  - now intros ->.
  - destruct (textParts messages) as [|p parts]; [congruence|].
    intros _. apply prefixedLines_joined.
Qed.

(** ** The refusals of a proactive message *)

Lemma findChannel_decide (handler : BotActivityHandler) (c : IChannel) :
  findChannel handler c =
  if decide (id c = "" /\ name c <> "")
  then findChannelByName handler (name c)
  else findChannelById handler (id c).
Proof.
  unfold findChannel, isEmptyString, nonEmptyString.
  destruct (String.eqb_spec (id c) ""), (String.eqb_spec (name c) "");
    cbn; destruct (decide _); tauto.
Qed.

(** The log of a send that ends with the entries [tail]. *)
Definition sendLog (messages : list IMessage) (w : World)
    (tail : list LogEntry) : list LogEntry :=
  log w ++ Start "send" :: unsupportedErrors messages ++ tail ++ [End "send"].

Lemma logged_sendLog this messages w (tail : list LogEntry) (w' : World) :
  log w' = log (composed this messages w).2 ++ tail ->
  log (logged (End "send") w') = sendLog messages w tail.
Proof.
  intros E. unfold sendLog, logged. cbn [log]. rewrite E, composed_log.
  rewrite <- !app_assoc. cbn [app]. now rewrite <- ?app_assoc.
Qed.

Ltac log_tail :=
  unfold logged; cbn [log]; rewrite <- ?app_assoc; reflexivity.

(** C2 (as amended).  A send without a live turn context while the cached
    service URL map is empty makes no transport call: no connector client
    is created and no conversation is created or resumed.  When the
    composed message is not empty, the send is refused: the error about the
    empty cache is logged and the send ends.  When the composed message is
    empty, the send logs the warning about the empty message instead. *)
Theorem cache_empty_refusal (this : MsteamsMiddleware)
    (contextData : IChatContextData) (messages : list IMessage) (w : World) :
  liveContext contextData = None ->
  size (getServiceUrl (botActivityHandler this)) = 0 ->
  let l := (composed this messages w).1 in
  let r := send this contextData messages w in
  calls r.2 = calls w
  /\ (textMessage l <> "" \/ attachmentsArray l <> [] ->
      r.1 = Resolved
      /\ log r.2 =
           sendLog messages w
             [Log INFO SendProactiveMessage; Log ERROR ServiceUrlCacheEmpty]
      /\ unhandled r.2 = unhandled w)
  /\ (textMessage l = "" /\ attachmentsArray l = [] ->
      log r.2 = sendLog messages w [Log WARN EmptyMessage]).
Proof.
  intros Hl Hs l r. subst r.
  destruct (composed_calls this messages w) as [Hc Hu].
  destruct (composeActivity (textMessage l) (attachmentsArray l)) as [a|] eqn:E.
  - rewrite (send_cache_empty this contextData messages w a E Hl Hs).
    split; [exact Hc|]. split.
    + intros _. split; [reflexivity|].
      split; [|exact Hu]. apply logged_sendLog with (this := this); log_tail.
    + intros Hempty. apply composeActivity_None in Hempty. congruence.
  - rewrite (send_empty this contextData messages w E).
    split; [exact Hc|]. split.
    + apply composeActivity_None in E. tauto.
    + intros _. apply logged_sendLog with (this := this); log_tail.
Qed.

(** C3 (as amended).  A send without a live turn context, with a composed
    message that is not empty and a cached service URL map that is not
    empty, looks the target channel up by name when its id is empty and its
    name is not, and by id otherwise.  When the lookup finds no channel the
    send is refused with the error that the channel does not exist; when
    the handler has no service URL for the id of the channel found (it
    answers the empty string) the send is refused with the error that the
    service URL does not exist.  Neither refusal makes a transport call. *)
Theorem channel_refusals (this : MsteamsMiddleware)
    (contextData : IChatContextData) (messages : list IMessage) (w : World) :
  liveContext contextData = None ->
  size (getServiceUrl (botActivityHandler this)) <> 0 ->
  let l := (composed this messages w).1 in
  textMessage l <> "" \/ attachmentsArray l <> [] ->
  let handler := botActivityHandler this in
  let c := channel contextData in
  let found :=
    if decide (id c = "" /\ name c <> "")
    then findChannelByName handler (name c)
    else findChannelById handler (id c) in
  let r := send this contextData messages w in
  (found = None ->
   r.1 = Resolved
   /\ log r.2 =
        sendLog messages w
          [Log INFO SendProactiveMessage; Log INFO (TargetChannelInfo None);
           Log ERROR (ChannelDoesNotExist c)]
   /\ calls r.2 = calls w /\ unhandled r.2 = unhandled w)
  /\ (forall channelInfo,
      found = Some channelInfo ->
      findServiceUrl handler (id channelInfo) = "" ->
      r.1 = Resolved
      /\ log r.2 =
           sendLog messages w
             [Log INFO SendProactiveMessage;
              Log INFO (TargetChannelInfo (Some channelInfo));
              Log INFO (ServiceUrlInfo "");
              Log ERROR (ServiceUrlDoesNotExist channelInfo)]
      /\ calls r.2 = calls w /\ unhandled r.2 = unhandled w).
Proof.
  intros Hl Hs l Hn handler c found r. subst r.
  destruct (composed_calls this messages w) as [Hc Hu].
  destruct (composeActivity_Some _ _ Hn) as [a E].
  assert (Hf : findChannel handler c = found) by apply findChannel_decide.
  split.
  - intros Hnone. rewrite Hnone in Hf.
    rewrite (send_channel_not_found this contextData messages w a E Hl Hs Hf).
    split; [reflexivity|]. split; [|split; assumption].
    apply logged_sendLog with (this := this); log_tail.
  - intros channelInfo Hsome Hurl. rewrite Hsome in Hf.
    rewrite (send_url_not_found this contextData messages w a channelInfo
               E Hl Hs Hf Hurl).
    split; [reflexivity|]. split; [|split; assumption].
    apply logged_sendLog with (this := this); log_tail.
Qed.

(** C8 (as amended).  The promise of [send] resolves, with no value,
    whatever happens: a refusal is not returned to the caller.  Each of the
    three refusals of a proactive message is logged as an error, which is
    the last entry before the end mark, and ends the send: nothing is tried
    again, no transport call is made and no promise is left pending. *)
Theorem refusals_are_logged_only (this : MsteamsMiddleware)
    (contextData : IChatContextData) (messages : list IMessage) (w : World) :
  let handler := botActivityHandler this in
  let l := (composed this messages w).1 in
  let r := send this contextData messages w in
  let refused (m : LogMessage) :=
    (exists infos, log r.2 = sendLog messages w (infos ++ [Log ERROR m]))
    /\ calls r.2 = calls w /\ unhandled r.2 = unhandled w in
  r.1 = Resolved
  /\ (liveContext contextData = None ->
      textMessage l <> "" \/ attachmentsArray l <> [] ->
      (size (getServiceUrl handler) = 0 -> refused ServiceUrlCacheEmpty)
      /\ (size (getServiceUrl handler) <> 0 ->
          findChannel handler (channel contextData) = None ->
          refused (ChannelDoesNotExist (channel contextData)))
      /\ (size (getServiceUrl handler) <> 0 ->
          forall channelInfo,
            findChannel handler (channel contextData) = Some channelInfo ->
            findServiceUrl handler (id channelInfo) = "" ->
            refused (ServiceUrlDoesNotExist channelInfo))).
Proof.
  intros handler l r refused. split; [apply send_never_rejects|].
  intros Hl Hn. subst refused r. cbv beta.
  destruct (composed_calls this messages w) as [Hc Hu].
  destruct (composeActivity_Some _ _ Hn) as [a E].
  split; [|split].
  - intros Hs.
    rewrite (send_cache_empty this contextData messages w a E Hl Hs).
    split; [|split; assumption].
    exists [Log INFO SendProactiveMessage].
    apply logged_sendLog with (this := this); log_tail.
  - intros Hs Hf.
    rewrite (send_channel_not_found this contextData messages w a E Hl Hs Hf).
    split; [|split; assumption].
    exists [Log INFO SendProactiveMessage; Log INFO (TargetChannelInfo None)].
    apply logged_sendLog with (this := this); log_tail.
  - intros Hs channelInfo Hf Hurl.
    rewrite (send_url_not_found this contextData messages w a channelInfo
               E Hl Hs Hf Hurl).
    split; [|split; assumption].
    exists [Log INFO SendProactiveMessage;
            Log INFO (TargetChannelInfo (Some channelInfo));
            Log INFO (ServiceUrlInfo "")].
    apply logged_sendLog with (this := this); log_tail.
Qed.

(** ** The mention objects *)

Ltac destruct_innermost x :=
  lazymatch x with
  | context [match ?y with _ => _ end] => destruct_innermost y
  | _ => destruct x
  end.

Lemma send_heap this contextData messages w :
  heap (send this contextData messages w).2 = heap (composed this messages w).2.
Proof.
  run_send. destruct (composed this messages w) as [l w1].
  repeat (match goal with
          | |- context [match ?x with _ => _ end] => destruct_innermost x
          end; cbn [heap logged called rejectedUnawaited fst snd]);
    reflexivity.
Qed.

Section Mentions.

Variable handler : BotActivityHandler.

Lemma forMention_array_other st r a :
  a <> r -> In a (forMention handler st r).1 <-> In a st.1.
Proof.
  intros Hne. unfold forMention. destruct (st.2 !! r); [|reflexivity].
  cbn. destruct (bothFound _); [|reflexivity].
  rewrite in_app_iff. cbn. intuition congruence.
Qed.

Lemma mentions_array_other refs st a :
  ~ In a refs -> In a (fold_left (forMention handler) refs st).1 <-> In a st.1.
Proof.
  revert st. induction refs as [|r refs IH]; intros st Hn; [reflexivity|].
  cbn [fold_left]. rewrite IH by (intros Hi; apply Hn; now right).
  apply forMention_array_other. intros ->. apply Hn. now left.
Qed.

(** An object that the request holds once is resolved once. *)
Lemma mentions_once refs st a mention :
  NoDup refs -> In a refs -> st.2 !! a = Some mention ->
  (fold_left (forMention handler) refs st).2 !! a =
    Some (resolveMention handler mention)
  /\ (In a (fold_left (forMention handler) refs st).1 <->
      In a st.1 \/ bothFound (resolveMention handler mention) = true).
Proof.
  revert st. induction refs as [|r refs IH]; intros st Hd Hi Hl; [easy|].
  apply NoDup_cons in Hd as [Hr Hd]. rewrite list_elem_of_In in Hr.
  cbn [fold_left]. destruct Hi as [->|Hi].
  - rewrite mentions_other, mentions_array_other by assumption.
    unfold forMention. rewrite Hl. cbn. split.
    + apply list_lookup_insert_eq. eapply lookup_lt_Some; eauto.
    + destruct (bothFound _); [|intuition congruence].
      rewrite in_app_iff. cbn. intuition.
  - assert (a <> r) by (intros ->; contradiction).
    destruct (IH (forMention handler st r) Hd Hi) as [E1 E2].
    { now rewrite forMention_other. }
    split; [exact E1|]. now rewrite E2, forMention_array_other.
Qed.

Lemma forMessage_array_other st m a :
  ~ In a (default [] (mentions m)) ->
  In a (mentionsArray (forMessage handler st m).1) <-> In a (mentionsArray st.1).
Proof.
  unfold forMessage, addMentions.
  assert (E : mentionsArray (addPart st m).1 = mentionsArray st.1)
    by (unfold addPart; destruct (type m); reflexivity).
  destruct (mentions m) as [refs|]; [destruct (Nat.ltb 0 (length refs))|];
    cbn; intros Hn; rewrite ?mentions_array_other by assumption; cbn;
    now rewrite E.
Qed.

Lemma forMessage_once st m a mention :
  NoDup (default [] (mentions m)) -> In a (default [] (mentions m)) ->
  heap st.2 !! a = Some mention ->
  heap (forMessage handler st m).2 !! a = Some (resolveMention handler mention)
  /\ (In a (mentionsArray (forMessage handler st m).1) <->
      In a (mentionsArray st.1)
      \/ bothFound (resolveMention handler mention) = true).
Proof.
  unfold forMessage, addMentions.
  assert (E : mentionsArray (addPart st m).1 = mentionsArray st.1)
    by (unfold addPart; destruct (type m); reflexivity).
  destruct (mentions m) as [refs|]; cbn; [|easy].
  intros Hd Hi Hl. destruct refs as [|r refs]; [easy|].
  cbn [length Nat.ltb Nat.leb]. cbn [fst snd heap withHeap mentionsArray setMentionsArray].
  rewrite <- E.
  apply mentions_once; [assumption | assumption |].
  cbn. now rewrite addPart_heap.
Qed.

Lemma loop_array_other messages st a :
  ~ In a (mentionAddresses messages) ->
  In a (mentionsArray (fold_left (forMessage handler) messages st).1) <->
  In a (mentionsArray st.1).
Proof.
  revert st. induction messages as [|m ms IH]; intros st Hn; [reflexivity|].
  unfold mentionAddresses in Hn. cbn [map concat] in Hn.
  rewrite in_app_iff in Hn.
  cbn [fold_left]. rewrite IH by (intros Hi; apply Hn; now right).
  apply forMessage_array_other. intros Hi. apply Hn. now left.
Qed.

Lemma loop_once messages st a mention :
  NoDup (mentionAddresses messages) -> In a (mentionAddresses messages) ->
  heap st.2 !! a = Some mention ->
  heap (fold_left (forMessage handler) messages st).2 !! a =
    Some (resolveMention handler mention)
  /\ (In a (mentionsArray (fold_left (forMessage handler) messages st).1) <->
      In a (mentionsArray st.1)
      \/ bothFound (resolveMention handler mention) = true).
Proof.
  revert st. induction messages as [|m ms IH]; intros st Hd Hi Hl; [easy|].
  unfold mentionAddresses in Hd, Hi. cbn [map concat] in Hd, Hi.
  fold (mentionAddresses ms) in Hd, Hi.
  apply NoDup_app in Hd as (Hd1 & Hd2 & Hd3).
  cbn [fold_left]. apply in_app_iff in Hi as [Hi|Hi].
  - assert (Hn : ~ In a (mentionAddresses ms)).
    { rewrite <- list_elem_of_In. apply Hd2. now rewrite list_elem_of_In. }
    rewrite loop_heap_other, loop_array_other by assumption.
    apply forMessage_once; assumption.
  - assert (Hn : ~ In a (default [] (mentions m))).
    { intros Hi'. rewrite <- list_elem_of_In in Hi, Hi'.
      exact (Hd2 _ Hi' Hi). }
    destruct (IH (forMessage handler st m) Hd3 Hi) as [E1 E2].
    { now rewrite forMessage_heap_other. }
    split; [exact E1|]. now rewrite E2, forMessage_array_other.
Qed.

End Mentions.

Lemma bothFound_decide (mention : IMention) :
  bothFound mention = true <->
  id (mentioned mention) <> "" /\ name (mentioned mention) <> "".
Proof.
  unfold bothFound. rewrite andb_true_iff, !nonEmptyString_true. reflexivity.
Qed.

Lemma composed_once this messages w a mention :
  NoDup (mentionAddresses messages) -> In a (mentionAddresses messages) ->
  heap w !! a = Some mention ->
  heap (composed this messages w).2 !! a =
    Some (resolveMention (botActivityHandler this) mention)
  /\ (In a (mentionsArray (composed this messages w).1) <->
      bothFound (resolveMention (botActivityHandler this) mention) = true).
Proof.
  intros Hd Hi Hl. unfold composed.
  destruct (loop_once (botActivityHandler this) messages
              (initialLocals, logged (Start "send") w) a mention Hd Hi Hl)
    as [E1 E2].
  split; [exact E1|]. rewrite E2. cbn. tauto.
Qed.


(** C9 (as amended).  Composition reads the directory and is a function of
    its input.  It makes no transport call and leaves no promise pending,
    but it writes to the mention objects of the caller: an object that the
    request holds (once) is overwritten with its resolved form.  Nothing
    else changes: the heap keeps its size, objects that the request does
    not hold are untouched, the other properties of every object are kept,
    and the rest of [send] writes to no object. *)
Theorem composition_frame (this : MsteamsMiddleware)
    (contextData : IChatContextData) (messages : list IMessage) (w : World) :
  let w1 := (composed this messages w).2 in
  calls w1 = calls w /\ unhandled w1 = unhandled w
  /\ length (heap w1) = length (heap w)
  /\ (forall a, ~ In a (mentionAddresses messages) ->
      heap w1 !! a = heap w !! a)
  /\ (forall a mention', heap w1 !! a = Some mention' ->
      exists mention,
        heap w !! a = Some mention
        /\ properties mention' = properties mention)
  /\ (forall a mention,
      NoDup (mentionAddresses messages) ->
      In a (mentionAddresses messages) ->
      heap w !! a = Some mention ->
      heap w1 !! a = Some (resolveMention (botActivityHandler this) mention))
  /\ heap (send this contextData messages w).2 = heap w1.
Proof.
  intros w1. subst w1.
  destruct (composed_calls this messages w) as [Hc Hu].
  repeat split; try assumption.
  - unfold composed. now rewrite loop_heap_length.
  - intros a Hn. unfold composed. now rewrite loop_heap_other.
  - intros a mention' Hl. unfold composed in Hl.
    now apply loop_heap_properties in Hl.
  - intros a mention Hd Hi Hl. now apply composed_once.
  - apply send_heap.
Qed.

End Msteams.

(** ** Requests, a directory and adapters of the examples *)

Arguments Start {Payload} fn.
Arguments End {Payload} fn.
Arguments Log {Payload} l m.
Arguments ErrorStack {Payload} e.
Arguments EmptyMessage {Payload}.
Arguments SendProactiveMessage {Payload}.
Arguments SendConversationMessage {Payload}.
Arguments ServiceUrlCacheEmpty {Payload}.
Arguments TargetChannelInfo {Payload} c.
Arguments ChannelDoesNotExist {Payload} c.
Arguments ServiceUrlInfo {Payload} url.
Arguments ServiceUrlDoesNotExist {Payload} c.
Arguments CreateConnectorClient {Payload} url.
Arguments CreateConversation {Payload} url p.
Arguments ContinueConversation {Payload} r sent.
Arguments send {Payload H} this contextData messages _.
Arguments composed {Payload H} this messages w.
Arguments firstActivity {Payload} textMessage attachments mentions.
Arguments restActivity {Payload} textMessage attachments mentions.
Arguments composeActivity {Payload} textMessage attachments.
Arguments forMention {Payload H} handler st r.
Arguments resolveMention {Payload H} handler mention.
Arguments adaptiveCard {Payload} card.
Arguments liveContext {Payload} contextData.
Arguments textMessage {Payload} l.
Arguments attachmentsArray {Payload} l.
Arguments mentionsArray {Payload} l.
Arguments log {Payload} w.
Arguments calls {Payload} w.
Arguments unhandled {Payload} w.
Arguments heap {Payload} w.
Arguments mentioned {Payload} i.
Arguments text {Payload} a.
Arguments attachments {Payload} a.
Arguments entities {Payload} a.
Arguments botActivityHandler {Payload} m.
Arguments mentionAddresses {Payload} messages.
Arguments textParts {Payload H} messages.
Arguments sendLog {Payload} messages w tail.
Arguments threadReference {Payload} first r url.
Arguments setEntities {Payload} a ms.
Arguments MessageFactory_text {Payload} t.
Arguments MessageFactory_attachment {Payload} a.
Arguments attachmentsActivity {Payload} l.

(** The payloads of the examples are strings that need no escaping. *)
Definition quoted (s : string) : string :=
  (String (ascii_of_nat 34) s ++ String (ascii_of_nat 34) EmptyString)%string.

(** [String.prototype.trim] on strings held as UTF-8: the white space and
    the line terminators of ECMAScript, which are TAB, LF, VT, FF, CR and
    SPACE on one byte, U+00A0 on two, and U+1680, U+2000 to U+200A, U+2028,
    U+2029, U+202F, U+205F, U+3000 and U+FEFF on three. *)
Definition isWhiteSpace1 (c : ascii) : bool :=
  let n := nat_of_ascii c in
  Nat.eqb n 32 || (Nat.leb 9 n && Nat.leb n 13).

Definition isWhiteSpace2 (c1 c2 : ascii) : bool :=
  Nat.eqb (nat_of_ascii c1) 194 && Nat.eqb (nat_of_ascii c2) 160.

Definition isWhiteSpace3 (c1 c2 c3 : ascii) : bool :=
  let a := nat_of_ascii c1 in
  let b := nat_of_ascii c2 in
  let c := nat_of_ascii c3 in
  (Nat.eqb a 225 && Nat.eqb b 154 && Nat.eqb c 128)
  || (Nat.eqb a 226 && Nat.eqb b 128
      && ((Nat.leb 128 c && Nat.leb c 138)
          || Nat.eqb c 168 || Nat.eqb c 169 || Nat.eqb c 175))
  || (Nat.eqb a 226 && Nat.eqb b 129 && Nat.eqb c 159)
  || (Nat.eqb a 227 && Nat.eqb b 128 && Nat.eqb c 128)
  || (Nat.eqb a 239 && Nat.eqb b 187 && Nat.eqb c 191).

Fixpoint trimStart (s : string) : string :=
  match s with
  | String c1 s1 =>
      if isWhiteSpace1 c1 then trimStart s1
      else
        match s1 with
        | String c2 s2 =>
            if isWhiteSpace2 c1 c2 then trimStart s2
            else
              match s2 with
              | String c3 s3 =>
                  if isWhiteSpace3 c1 c2 c3 then trimStart s3 else s
              | EmptyString => s
              end
        | EmptyString => s
        end
  | EmptyString => EmptyString
  end.

(** The same from the end, on the reversed string. *)
Fixpoint trimStartReversed (s : string) : string :=
  match s with
  | String c1 s1 =>
      if isWhiteSpace1 c1 then trimStartReversed s1
      else
        match s1 with
        | String c2 s2 =>
            if isWhiteSpace2 c2 c1 then trimStartReversed s2
            else
              match s2 with
              | String c3 s3 =>
                  if isWhiteSpace3 c3 c2 c1 then trimStartReversed s3 else s
              | EmptyString => s
              end
        | EmptyString => s
        end
  | EmptyString => EmptyString
  end.

Definition trimEnd (s : string) : string :=
  String.rev (trimStartReversed (String.rev s)).

Definition trimUtf8 (s : string) : string := trimEnd (trimStart s).

#[export] Instance string_JsAny : JsAny string :=
  {| toString s := s; JSON_stringify s := quoted s;
     trim := trimUtf8; trim_empty := eq_refl |}.

(** Modelled from the spec: the Channel Directory and the Delivery Endpoint
    Cache kept by the class [BotActivityHandler], whose code is not part of
    the sources at hand.  Channels are looked up by id or by name with an
    exact match, the most recently recorded first; the endpoint of a channel
    id is the recorded URL, and the empty string when there is none. *)
Definition handlerOf (channels : list IChannel) (urls : gmap string string)
    : BotActivityHandler :=
  {| findChannelByName n := List.find (fun c => String.eqb (name c) n) channels;
     findChannelById i := List.find (fun c => String.eqb (id c) i) channels;
     getServiceUrl := urls;
     findServiceUrl i := default "" (urls !! i) |}.

Definition ops : IChannel := {| id := "C1"; name := "ops" |}.
Definition general : IChannel := {| id := "C1"; name := "general" |}.

(** An adapter whose calls all succeed; the thread created is ["T1"]. *)
Definition adapterOk : BotFrameworkAdapter string :=
  {| createConnectorClient _ := None;
     createConversation _ _ := inr {| response_id := "T1" |};
     continueConversation _ _ := None;
     sendTraceActivity _ := None;
     sendActivity _ := None |}.

Definition badRequest : Error :=
  {| error_name := "RestError"; error_message := "Bad Request" |}.

(** The bot has seen one turn from the channel [ops]. *)
Definition thisOps : MsteamsMiddleware string :=
  {| botFrameworkAdapter := adapterOk;
     botActivityHandler := handlerOf [ops] {[ "C1" := "https://svc/a" ]} |}.

(** The bot has seen no turn at all. *)
Definition thisNew : MsteamsMiddleware string :=
  {| botFrameworkAdapter := adapterOk; botActivityHandler := handlerOf [] ∅ |}.

Definition thisGeneral : MsteamsMiddleware string :=
  {| botFrameworkAdapter := adapterOk;
     botActivityHandler := handlerOf [general] {[ "C1" := "https://svc/a" ]} |}.


Definition proactiveTo (c : IChannel) : IChatContextData string :=
  {| chatToolContext := None; channel := c |}.



Definition plainText (s : string) : IMessage string :=
  {| type := PLAIN_TEXT; message := s; mentions := None |}.

Definition richCard (card : string) : IMessage string :=
  {| type := MSTEAMS_ADAPTIVE_CARD; message := card; mentions := None |}.

Definition mentioning (m : IMessage string) (refs : list nat) : IMessage string :=
  {| type := type _ m; message := message _ m; mentions := Some refs |}.

Definition mentionOf (c : IChannel) : IMention string :=
  {| mentioned := c; properties := [] |}.

Definition world (h : list (IMention string)) : World string :=
  {| log := []; calls := []; unhandled := []; heap := h |}.

(** A directory with a channel for which no service URL is cached. *)
Definition thisDev : MsteamsMiddleware string :=
  {| botFrameworkAdapter := adapterOk;
     botActivityHandler :=
       handlerOf [ops; {| id := "C2"; name := "dev" |}]
         {[ "C1" := "https://svc/a" ]} |}.

(** ** The statements at concrete requests *)

Ltac decide_in H := vm_compute in H; intuition discriminate.

(** The end-to-end scenario of the text message: the channel is found by
    its name, the conversation is created with the text, and the thread is
    resumed although nothing is left to send. *)
Example send_hi_to_ops :
  send thisOps (proactiveTo {| id := ""; name := "ops" |}) [plainText "hi"]
    (world []) =
  (Resolved,
   {| log := sendLog [plainText "hi"] (world [])
               [Log INFO SendProactiveMessage;
                Log INFO (TargetChannelInfo (Some ops));
                Log INFO (ServiceUrlInfo "https://svc/a")];
      calls :=
        [CreateConnectorClient "https://svc/a";
         CreateConversation "https://svc/a"
           {| params_isGroup := true; channelData_channel := ops;
              params_activity :=
                Some (setEntities (MessageFactory_text (LF ++ "hi")%string) []) |};
         ContinueConversation
           {| activityId := None; ref_channelId := None;
              ref_serviceUrl := Some "https://svc/a";
              ref_conversation :=
                Some {| isGroup := Some true; conversation_id := "T1";
                        conversationType := Some "channel" |} |}
           None];
      unhandled := []; heap := [] |}).
Proof. reflexivity. Qed.

Lemma proactive_split_witness :
  (exists first rest,
     firstActivity "hi" [adaptiveCard "X"] [] = Some first
     /\ restActivity "hi" [adaptiveCard "X"] [] = Some rest
     /\ text first = Some "hi"
     /\ attachments rest = Some [adaptiveCard "X"])
  /\ (exists first rest,
        firstActivity "" [adaptiveCard "X"; adaptiveCard "Y"] [] = Some first
        /\ restActivity "" [adaptiveCard "X"; adaptiveCard "Y"] [] = Some rest
        /\ attachments first = Some [adaptiveCard "X"]
        /\ attachments rest = Some [adaptiveCard "Y"])
  /\ (exists first,
        firstActivity "" [adaptiveCard "X"] [] = Some first
        /\ restActivity "" [adaptiveCard "X"] [] = None
        /\ attachments first = Some [adaptiveCard "X"])
  /\ (exists first,
        firstActivity "" [adaptiveCard "A"; adaptiveCard "B"] [] = Some first
        /\ calls (send thisOps (proactiveTo {| id := ""; name := "ops" |})
                    [richCard "A"; richCard "B"] (world [])).2 =
           [CreateConnectorClient "https://svc/a";
            CreateConversation "https://svc/a"
              {| params_isGroup := true; channelData_channel := ops;
                 params_activity :=
                   firstActivity "" [adaptiveCard "A"; adaptiveCard "B"] [] |};
            ContinueConversation
              (threadReference first {| response_id := "T1" |}
                 "https://svc/a")
              (restActivity "" [adaptiveCard "A"; adaptiveCard "B"] [])]).
Proof.
  split; [|split; [|split]].
  - destruct (proactive_split string "hi" [adaptiveCard "X"] []) as (Hboth & _).
    destruct Hboth as (first & rest & H1 & H2 & H3 & _ & _ & _ & H7 & _);
      [discriminate | discriminate |].
    exists first, rest. auto.
  - destruct (proactive_split string "" [adaptiveCard "X"; adaptiveCard "Y"] [])
      as (_ & Hcards & _).
    destruct (Hcards (adaptiveCard "X") (adaptiveCard "Y") [] eq_refl eq_refl)
      as (first & rest & H1 & H2 & _ & H4 & _ & _ & H7 & _).
    exists first, rest. auto.
  - destruct (proactive_split string "" [adaptiveCard "X"] [])
      as (_ & _ & Hone & _).
    destruct (Hone (adaptiveCard "X") eq_refl eq_refl)
      as (first & H1 & H2 & _ & H4 & _).
    exists first. auto.
  - destruct (proactive_split string "" [] []) as (_ & _ & _ & _ & Hsend).
    destruct (Hsend thisOps (proactiveTo {| id := ""; name := "ops" |})
                [richCard "A"; richCard "B"] (world []) ops
                {| response_id := "T1" |})
      as (first & H1 & H2);
      [reflexivity | right; discriminate | vm_compute; discriminate
      | reflexivity | vm_compute; discriminate | reflexivity | reflexivity |].
    exists first. split; [exact H1 | exact H2].
Defined.

Lemma unit_by_cases_witness :
  composeActivity
    (textMessage (composed thisOps [] (world [])).1)
    (attachmentsArray (composed thisOps [] (world [])).1) = None
  /\ log (send thisOps (proactiveTo ops) [] (world [])).2 =
       [Start "send"; Log WARN EmptyMessage; End "send"]
  /\ calls (send thisOps (proactiveTo ops) [] (world [])).2 = []
  /\ exists a,
       composeActivity
         (textMessage (composed thisOps [plainText "hi"] (world [])).1)
         (attachmentsArray (composed thisOps [plainText "hi"] (world [])).1)
       = Some a
       /\ text a = Some (LF ++ "hi")%string.
Proof.
  destruct (unit_by_cases string thisOps (proactiveTo ops) [] (world []))
    as (_ & _ & _ & Hnone).
  destruct (Hnone eq_refl eq_refl) as (H1 & _ & H3 & H4 & _).
  destruct (unit_by_cases string thisOps (proactiveTo ops) [plainText "hi"]
              (world [])) as (Htext & _).
  destruct Htext as (a & H5 & H6 & _); [discriminate | reflexivity |].
  repeat split; try assumption. exists a. split; assumption.
Defined.

(** C6: the text composed from the plain texts [a] and [b] is not [a], a
    line feed and [b]: it starts with a line feed. *)
Lemma joined_text_counterexample :
  textMessage (composed thisOps [plainText "a"; plainText "b"] (world [])).1
  <> ("a" ++ LF ++ "b")%string.
Proof. vm_compute. discriminate. Qed.

Lemma text_accumulation_witness :
  textMessage (composed thisOps [plainText "a"; plainText "b"] (world [])).1
  = (LF ++ "a" ++ LF ++ "b")%string
  /\ textMessage (composed thisOps [richCard "X"] (world [])).1 = "".
Proof.
  destruct (text_accumulation string thisOps [plainText "a"; plainText "b"]
              (world [])) as (_ & _ & Hjoined).
  destruct (text_accumulation string thisOps [richCard "X"] (world []))
    as (_ & Hnone & _).
  split; [apply Hjoined; discriminate | apply Hnone; reflexivity].
Defined.

(** C2: a request without messages, sent without a live turn context while
    no service URL is cached, is not refused for the empty cache. *)
Lemma empty_request_is_not_refused :
  liveContext (proactiveTo ops) = None
  /\ size (getServiceUrl (botActivityHandler thisNew)) = 0
  /\ ~ In (Log ERROR ServiceUrlCacheEmpty)
         (log (send thisNew (proactiveTo ops) [] (world [])).2).
Proof.
  split; [reflexivity|]. split; [reflexivity|]. intros Hin. decide_in Hin.
Qed.

Lemma cache_empty_refusal_witness :
  calls (send thisNew (proactiveTo ops) [plainText "hi"] (world [])).2 = []
  /\ log (send thisNew (proactiveTo ops) [plainText "hi"] (world [])).2 =
       [Start "send"; Log INFO SendProactiveMessage;
        Log ERROR ServiceUrlCacheEmpty; End "send"].
Proof.
  destruct (cache_empty_refusal string thisNew (proactiveTo ops)
              [plainText "hi"] (world []) eq_refl eq_refl) as [Hcalls Hrefused].
  destruct Hrefused as [Hrefused _].
  destruct Hrefused as (_ & Hlog & _); [left; discriminate|].
  split; [exact Hcalls | exact Hlog].
Defined.

(** C3: a request without messages for a channel that the directory does
    not hold is not refused for the missing channel. *)
Lemma empty_request_is_not_resolved :
  liveContext (proactiveTo {| id := "C9"; name := "" |}) = None
  /\ size (getServiceUrl (botActivityHandler thisOps)) <> 0
  /\ findChannelById (botActivityHandler thisOps) "C9" = None
  /\ ~ In (Log ERROR (ChannelDoesNotExist {| id := "C9"; name := "" |}))
         (log (send thisOps (proactiveTo {| id := "C9"; name := "" |}) []
                 (world [])).2).
Proof.
  split; [reflexivity|]. split; [vm_compute; discriminate|].
  split; [reflexivity|]. intros Hin. decide_in Hin.
Qed.

Lemma channel_refusals_witness :
  log (send thisOps (proactiveTo {| id := "C9"; name := "" |})
         [plainText "hi"] (world [])).2 =
    [Start "send"; Log INFO SendProactiveMessage;
     Log INFO (TargetChannelInfo None);
     Log ERROR (ChannelDoesNotExist {| id := "C9"; name := "" |});
     End "send"]
  /\ calls (send thisOps (proactiveTo {| id := "C9"; name := "" |})
              [plainText "hi"] (world [])).2 = []
  /\ log (send thisDev (proactiveTo {| id := ""; name := "dev" |})
            [plainText "hi"] (world [])).2 =
       [Start "send"; Log INFO SendProactiveMessage;
        Log INFO (TargetChannelInfo (Some {| id := "C2"; name := "dev" |}));
        Log INFO (ServiceUrlInfo "");
        Log ERROR (ServiceUrlDoesNotExist {| id := "C2"; name := "dev" |});
        End "send"]
  /\ calls (send thisDev (proactiveTo {| id := ""; name := "dev" |})
              [plainText "hi"] (world [])).2 = [].
Proof.
  assert (Hsize : forall cs,
            size (getServiceUrl
                    (handlerOf cs {[ "C1" := "https://svc/a" ]})) <> 0)
    by (intros cs; vm_compute; discriminate).
  destruct (channel_refusals string thisOps
              (proactiveTo {| id := "C9"; name := "" |}) [plainText "hi"]
              (world []) eq_refl (Hsize _)) as [Hchannel _];
    [left; discriminate|].
  destruct (Hchannel eq_refl) as (_ & H1 & H2 & _).
  destruct (channel_refusals string thisDev
              (proactiveTo {| id := ""; name := "dev" |}) [plainText "hi"]
              (world []) eq_refl (Hsize _)) as [_ Hurl];
    [left; discriminate|].
  destruct (Hurl {| id := "C2"; name := "dev" |} eq_refl eq_refl)
    as (_ & H3 & H4 & _).
  repeat split; assumption.
Defined.



(** C7: a proactive text message, for which nothing is left to send after
    the conversation is created, still resumes the thread and pushes the
    null rest activity: two transport calls, not one. *)
Theorem text_only_message_resumes_thread :
  let l := (composed thisOps [plainText "hi"] (world [])).1 in
  restActivity (textMessage l) (attachmentsArray l) [] = None
  /\ calls (send thisOps (proactiveTo {| id := ""; name := "ops" |})
              [plainText "hi"] (world [])).2 =
     [CreateConnectorClient "https://svc/a";
      CreateConversation "https://svc/a"
        {| params_isGroup := true; channelData_channel := ops;
           params_activity :=
             Some (setEntities (MessageFactory_text (LF ++ "hi")%string) []) |};
      ContinueConversation
        {| activityId := None; ref_channelId := None;
           ref_serviceUrl := Some "https://svc/a";
           ref_conversation :=
             Some {| isGroup := Some true; conversation_id := "T1";
                     conversationType := Some "channel" |} |}
        None].
Proof. split; reflexivity. Qed.

(** C8: a send that is refused for the empty cache logs the refusal, and
    its promise resolves: the caller gets no error. *)
Lemma refusal_is_not_returned :
  let r := send thisNew (proactiveTo ops) [plainText "hi"] (world []) in
  In (Log ERROR ServiceUrlCacheEmpty) (log r.2)
  /\ r.1 = Resolved
  /\ ~ exists e, r.1 = Rejected e.
Proof.
  cbv zeta. split; [vm_compute; auto|]. split; [reflexivity|].
  intros [e He]. discriminate He.
Qed.

Lemma refusals_are_logged_only_witness :
  (send thisNew (proactiveTo ops) [plainText "hi"] (world [])).1 = Resolved
  /\ (exists infos,
        log (send thisNew (proactiveTo ops) [plainText "hi"] (world [])).2 =
        sendLog [plainText "hi"] (world [])
          (infos ++ [Log ERROR ServiceUrlCacheEmpty]))
  /\ (exists infos,
        log (send thisOps (proactiveTo {| id := "C9"; name := "" |})
               [plainText "hi"] (world [])).2 =
        sendLog [plainText "hi"] (world [])
          (infos ++ [Log ERROR (ChannelDoesNotExist {| id := "C9"; name := "" |})]))
  /\ (exists infos,
        log (send thisDev (proactiveTo {| id := ""; name := "dev" |})
               [plainText "hi"] (world [])).2 =
        sendLog [plainText "hi"] (world [])
          (infos ++ [Log ERROR (ServiceUrlDoesNotExist {| id := "C2"; name := "dev" |})])).
Proof.
  assert (Hsize : forall cs,
            size (getServiceUrl
                    (handlerOf cs {[ "C1" := "https://svc/a" ]})) <> 0)
    by (intros cs; vm_compute; discriminate).
  destruct (refusals_are_logged_only string thisNew (proactiveTo ops)
              [plainText "hi"] (world [])) as [Hresolved Hrefused].
  destruct Hrefused as (Hcache & _ & _); [reflexivity | left; discriminate |].
  destruct (Hcache eq_refl) as (Hlog1 & _).
  destruct (refusals_are_logged_only string thisOps
              (proactiveTo {| id := "C9"; name := "" |}) [plainText "hi"]
              (world [])) as [_ Hrefused].
  destruct Hrefused as (_ & Hchannel & _); [reflexivity | left; discriminate |].
  destruct (Hchannel (Hsize _) eq_refl) as (Hlog2 & _).
  destruct (refusals_are_logged_only string thisDev
              (proactiveTo {| id := ""; name := "dev" |}) [plainText "hi"]
              (world [])) as [_ Hrefused].
  destruct Hrefused as (_ & _ & Hurl); [reflexivity | left; discriminate |].
  destruct (Hurl (Hsize _) {| id := "C2"; name := "dev" |} eq_refl eq_refl)
    as (Hlog3 & _).
  repeat split; assumption.
Defined.

(** C9: composing a message that mentions the channel [general] by name
    overwrites the mention object of the caller with the id found. *)
Lemma mention_object_is_overwritten :
  let before := [mentionOf {| id := ""; name := "general" |}] in
  let request := [mentioning (plainText "hi") [0]] in
  heap (composed thisGeneral request (world before)).2 = [mentionOf general]
  /\ heap (composed thisGeneral request (world before)).2 <> before
  /\ heap (send thisGeneral (proactiveTo general) request (world before)).2
     <> heap (world before).
Proof. cbv zeta. repeat split; vm_compute; discriminate. Qed.

Lemma composition_frame_witness :
  let before :=
    [mentionOf {| id := ""; name := "general" |}; mentionOf ops] in
  let request := [mentioning (plainText "hi") [0]] in
  let after := heap (composed thisGeneral request (world before)).2 in
  after !! 0 = Some (mentionOf general)
  /\ after !! 1 = Some (mentionOf ops)
  /\ length after = 2
  /\ calls (composed thisGeneral request (world before)).2 = [].
Proof.
  cbv zeta.
  destruct (composition_frame string thisGeneral (proactiveTo general)
              [mentioning (plainText "hi") [0]]
              (world [mentionOf {| id := ""; name := "general" |};
                      mentionOf ops]))
    as (Hcalls & _ & Hlength & Hother & _ & Hheld & _).
  split.
  - apply (Hheld 0 (mentionOf {| id := ""; name := "general" |}));
      [apply NoDup_singleton | now left | reflexivity].
  - split; [|split; [exact Hlength | exact Hcalls]].
    rewrite Hother; [reflexivity|]. intros Hin. decide_in Hin.
Defined.

(** * More of [send] and [processTurnError] *)

Arguments getConversationReference {Payload} a.
Arguments turn_activity {Payload} t.
Arguments channel {Payload} i.
Arguments bothFound {Payload} mention.
Arguments botFrameworkAdapter {Payload} m.
Arguments continueConversation {Payload} b _ _.
Arguments createConversation {Payload} b _ _.
Arguments createConnectorClient {Payload} b _.
Arguments sendTraceActivity {Payload} b _.
Arguments sendActivity {Payload} b _.
Arguments SendTraceActivity {Payload} e.
Arguments SendActivity {Payload} t.
Arguments UnhandledError {Payload} e.
Arguments UnsupportedType {Payload} m.
Arguments processTurnError {Payload} this context error _.
Arguments deref {Payload} h refs.
Arguments type {Payload} i.
Arguments message {Payload} i.
Arguments mentions {Payload} i.
Arguments logged {Payload} e w.
Arguments called {Payload} c w.
Arguments rejectedUnawaited {Payload} e w.

(** Is the message an adaptive card, is its type one that [send] does not
    support (lines 120-124). *)
Definition isAdaptiveCard (t : IMessageType) : bool :=
  match t with MSTEAMS_ADAPTIVE_CARD => true | _ => false end.

Definition isUnsupported (t : IMessageType) : bool :=
  match t with OTHER_TYPE _ => true | _ => false end.

Section Delivery.

Variable Payload : Type.
Context `{JsAny Payload}.

(** The attachments an activity, if any, carries. *)
Definition carried (a : option (Activity Payload)) : list (Attachment Payload) :=
  match a with
  | Some a => default [] (attachments a)
  | None => []
  end.



Ltac unfold_send :=
  unfold send, async, try_catch_finally, sendBody, sendProactive,
    sendConversation, forMessages, bind, ret, return_void, throw, await,
    await_value, unawaited, getHeap, logger_info, logger_error, logger_warn,
    logger;
  match goal with
  | |- context [fold_left (forMessage _ (botActivityHandler ?t)) ?ms
                  (initialLocals _, logged (Start "send") ?w)] =>
      fold (composed t ms w)
  end.

Ltac innermost x :=
  lazymatch x with
  | context [match ?y with _ => _ end] => innermost y
  | _ => destruct x eqn:?
  end.

Ltac by_paths :=
  repeat (match goal with
          | |- context [match ?x with _ => _ end] => innermost x
          end;
          cbn [log calls unhandled heap logged called rejectedUnawaited
               fst snd]).


Lemma sendBody_log (this : MsteamsMiddleware Payload)
    (contextData : IChatContextData Payload)
    (messages : list (IMessage Payload)) (w : World Payload) :
  exists more,
    log (sendBody Payload this contextData messages
           (logged (Start "send") w)).2 =
    log (composed this messages w).2 ++ more.
Proof.
  unfold sendBody, sendProactive, sendConversation, forMessages, bind, ret,
    return_void, throw, await, await_value, unawaited, getHeap, logger_info,
    logger_error, logger_warn, logger.
  fold (composed this messages w).
  destruct (composed this messages w) as [l w1]. cbn [fst snd].
  by_paths; rewrite <- ?app_assoc; eexists;
    first [reflexivity | symmetry; apply app_nil_r].
Qed.

Lemma unsupported_filtered (messages : list (IMessage Payload)) :
  unsupportedErrors Payload messages =
  map (fun m => Log ERROR (UnsupportedType m))
    (List.filter (fun m => isUnsupported (type m)) messages).
Proof.
  unfold unsupportedErrors.
  induction messages as [|m ms IH]; [reflexivity|].
  cbn [omap list_omap List.filter]. unfold unsupportedPart at 1.
  destruct (type m); cbn; now rewrite IH.
Qed.

(** X2.  Every send logs its start mark first and its end mark last,
    whatever happens in between, and its promise resolves.  Right after
    the start mark comes one error entry for each message whose type is
    not supported, in the order of the request. *)
Theorem send_log_brackets (this : MsteamsMiddleware Payload)
    (contextData : IChatContextData Payload)
    (messages : list (IMessage Payload)) (w : World Payload) :
  exists tail,
    log (send this contextData messages w).2 =
    log w
    ++ Start "send"
       :: map (fun m => Log ERROR (UnsupportedType m))
            (List.filter (fun m => isUnsupported (type m)) messages)
    ++ tail ++ [End "send"]
    /\ (send this contextData messages w).1 = Resolved.
Proof.
  destruct (sendBody_log this contextData messages w) as [more Hmore].
  rewrite (composed_log Payload), unsupported_filtered in Hmore.
  unfold send, async, try_catch_finally, bind, logger_error, logger.
  destruct (sendBody Payload this contextData messages _) as [[[]| |e] w'];
    cbn [fst snd log logged] in *; rewrite Hmore.
  - exists more. split; [|reflexivity].
    rewrite <- ?app_assoc. cbn [app]. now rewrite <- ?app_assoc.
  - exists more. split; [|reflexivity].
    rewrite <- ?app_assoc. cbn [app]. now rewrite <- ?app_assoc.
  - exists (more ++ [Log ERROR (ErrorStack e)]). split; [|reflexivity].
    rewrite <- ?app_assoc. cbn [app]. now rewrite <- ?app_assoc.
Qed.


Ltac log_tail :=
  unfold logged, called, rejectedUnawaited; cbn [log];
  rewrite <- ?app_assoc; reflexivity.


(** X4.  When a proactive message has passed the three refusals and the
    connector client cannot be created, no conversation is created; when
    the conversation cannot be created, the thread is not resumed and the
    rest is not sent.  In both cases the error is caught, its stack is
    logged, and no rejection is left pending. *)
Theorem creation_failure_is_contained (this : MsteamsMiddleware Payload)
    (contextData : IChatContextData Payload)
    (messages : list (IMessage Payload)) (w : World Payload)
    (channelInfo : IChannel) :
  let handler := botActivityHandler this in
  let adapter := botFrameworkAdapter this in
  let l := (composed this messages w).1 in
  let r := send this contextData messages w in
  let url := findServiceUrl handler (id channelInfo) in
  let parameters :=
    {| params_isGroup := true; channelData_channel := channelInfo;
       params_activity :=
         firstActivity (textMessage l) (attachmentsArray l)
           (deref (heap (composed this messages w).2) (mentionsArray l)) |} in
  let infos :=
    [Log INFO SendProactiveMessage;
     Log INFO (TargetChannelInfo (Some channelInfo));
     Log INFO (ServiceUrlInfo url)] in
  liveContext contextData = None ->
  textMessage l <> "" \/ attachmentsArray l <> [] ->
  size (getServiceUrl handler) <> 0 ->
  findChannel handler (channel contextData) = Some channelInfo ->
  url <> "" ->
  (forall e,
     createConnectorClient adapter url = Some e ->
     calls r.2 = calls w ++ [CreateConnectorClient url]
     /\ log r.2 = sendLog messages w (infos ++ [Log ERROR (ErrorStack e)])
     /\ unhandled r.2 = unhandled w)
  /\ (forall e,
        createConnectorClient adapter url = None ->
        createConversation adapter url parameters = inl e ->
        calls r.2 =
          calls w ++ [CreateConnectorClient url;
                      CreateConversation url parameters]
        /\ log r.2 = sendLog messages w (infos ++ [Log ERROR (ErrorStack e)])
        /\ unhandled r.2 = unhandled w).
Proof.
  intros handler adapter l r url parameters infos Hl Hn Hs Hf Hu. subst r.
  destruct (composeActivity_Some Payload _ _ Hn) as [activity Hc].
  destruct (composed_calls Payload this messages w) as [Hcalls Hun].
  split.
  - intros e Ha.
    assert (E : send this contextData messages w =
                (Resolved,
                 logged (End "send")
                   (logged (Log ERROR (ErrorStack e))
                      (called (CreateConnectorClient url)
                         (logged (Log INFO (ServiceUrlInfo url))
                            (logged (Log INFO
                                       (TargetChannelInfo (Some channelInfo)))
                               (logged (Log INFO SendProactiveMessage)
                                  (composed this messages w).2))))))).
    { unfold_send. fold l handler adapter. rewrite Hc, Hl, Hf. fold url.
      apply Nat.eqb_neq in Hs. rewrite Hs.
      apply isEmptyString_false in Hu. rewrite Hu. now rewrite Ha. }
    rewrite E. cbn [calls unhandled logged called snd]. rewrite Hcalls, Hun.
    split; [reflexivity|]. split; [|reflexivity].
    apply (@logged_sendLog Payload _ this messages w); log_tail.
  - intros e Ha He.
    rewrite (send_creation_fails Payload this contextData messages w activity
               channelInfo e Hc Hl Hs Hf Hu Ha He).
    fold handler url l parameters.
    cbn [calls unhandled logged called snd]. rewrite Hcalls, Hun.
    split; [now rewrite <- app_assoc|]. split; [|reflexivity].
    apply (@logged_sendLog Payload _ this messages w); log_tail.
Qed.

(** X5.  The attachments of the composed message are the adaptive cards
    of the card messages, one for each and in the order of the request,
    whatever the other messages, the mentions and the directory are. *)
Theorem attachments_in_order (this : MsteamsMiddleware Payload)
    (messages : list (IMessage Payload)) (w : World Payload) :
  attachmentsArray (composed this messages w).1 =
  map (fun m => adaptiveCard (message m))
    (List.filter (fun m => isAdaptiveCard (type m)) messages)
  /\ length (attachmentsArray (composed this messages w).1) <= length messages.
Proof.
  rewrite (composed_attachments Payload).
  assert (E : cards Payload messages =
              map (fun m => adaptiveCard (message m))
                (List.filter (fun m => isAdaptiveCard (type m)) messages)).
  { unfold cards. induction messages as [|m ms IH]; [reflexivity|].
    cbn [omap list_omap List.filter]. unfold cardPart at 1.
    destruct (type m); cbn; now rewrite IH. }
  split; [exact E|].
  rewrite E, length_map. apply List.filter_length_le.
Qed.

(** X7.  Splitting a message that is not empty for proactive delivery
    loses nothing and repeats nothing: the first activity has the text of
    the combined activity, the attachments of the first and of the rest
    together are the attachments of the message, in order.  The activity
    that creates the conversation never holds more than one attachment, and
    never text together with an attachment. *)
Theorem split_loses_nothing (t : string) (atts : list (Attachment Payload))
    (ms : list (IMention Payload)) :
  t <> "" \/ atts <> [] ->
  exists unit first,
    composeActivity t atts = Some unit
    /\ firstActivity t atts ms = Some first
    /\ text first = text unit
    /\ carried (Some unit) = atts
    /\ carried (Some first) ++ carried (restActivity t atts ms) = atts
    /\ length (carried (Some first)) <= 1
    /\ (text first <> None -> attachments first = None).
Proof.
  intros Hn.
  unfold composeActivity, firstActivity, restActivity, nonEmptyString,
    isEmptyString.
  destruct (String.eqb_spec t "") as [->|Ht];
    destruct atts as [|a [|b more]]; cbn;
    try (destruct Hn; congruence);
    eexists _, _; repeat split; cbn; auto; try lia; try congruence.
Qed.

(** X8.  The handler of turn errors logs the error and its stack, sends
    the trace activity and then the apology.  When the trace activity
    fails the apology is not sent.  A failure of either is caught and its
    stack logged; the end mark is always the last entry and the promise
    always resolves. *)
Theorem processTurnError_contained (this : MsteamsMiddleware Payload)
    (context : TurnContext Payload) (error : Error) (w : World Payload) :
  let adapter := botFrameworkAdapter this in
  let r := processTurnError this context error w in
  let opening :=
    [Start "processTurnError"; Log ERROR (UnhandledError error);
     Log ERROR (ErrorStack error)] in
  r.1 = Resolved /\ unhandled r.2 = unhandled w /\ heap r.2 = heap w
  /\ match sendTraceActivity adapter error with
     | Some e =>
         calls r.2 = calls w ++ [SendTraceActivity error]
         /\ log r.2 =
            log w ++ opening
            ++ [Log ERROR (ErrorStack e); End "processTurnError"]
     | None =>
         calls r.2 = calls w ++ [SendTraceActivity error; SendActivity apology]
         /\ log r.2 =
            log w ++ opening
            ++ match sendActivity adapter apology with
               | Some e => [Log ERROR (ErrorStack e)]
               | None => []
               end
            ++ [End "processTurnError"]
     end.
Proof.
  intros adapter r opening. subst r opening.
  unfold processTurnError, async, try_catch_finally, bind, await,
    logger_error, logger.
  fold adapter.
  destruct (sendTraceActivity adapter error);
    [|destruct (sendActivity adapter apology)];
    cbn [fst snd log calls unhandled heap logged called];
    rewrite <- ?app_assoc; repeat split; reflexivity.
Qed.

Section Array.

Variable handler : BotActivityHandler.

Lemma forMention_array_in (st : list nat * list (IMention Payload)) r a :
  In a (forMention handler st r).1 ->
  In a st.1 \/ (a = r /\ a < length st.2).
Proof.
  unfold forMention. destruct (st.2 !! r) as [m|] eqn:E; [|now left].
  cbn. destruct (bothFound _); [|now left].
  rewrite in_app_iff. cbn. intros [Hi|[<-|[]]]; [now left|right].
  split; [reflexivity|]. eapply lookup_lt_Some; eauto.
Qed.

Lemma mentions_array_in refs (st : list nat * list (IMention Payload)) a :
  In a (fold_left (forMention handler) refs st).1 ->
  In a st.1 \/ (In a refs /\ a < length st.2).
Proof.
  revert st. induction refs as [|r refs IH]; intros st Hi; [now left|].
  cbn [fold_left] in Hi. apply IH in Hi as [Hi|[Hi Hlt]].
  - apply forMention_array_in in Hi as [Hi|[-> Hlt]]; [now left|right].
    split; [now left | assumption].
  - right. split; [now right|].
    now rewrite (forMention_length Payload) in Hlt.
Qed.

Lemma forMessage_array_in (st : Locals Payload * World Payload) m a :
  In a (mentionsArray (forMessage Payload handler st m).1) ->
  In a (mentionsArray st.1)
  \/ (In a (default [] (mentions m)) /\ a < length (heap st.2)).
Proof.
  unfold forMessage, addMentions.
  assert (E : mentionsArray (addPart Payload st m).1 = mentionsArray st.1)
    by (unfold addPart; destruct (type m); reflexivity).
  destruct (mentions m) as [refs|]; [destruct (Nat.ltb 0 (length refs))|];
    cbn; rewrite <- ?E; try tauto.
  intros Hi. apply mentions_array_in in Hi. cbn in Hi.
  now rewrite (addPart_heap Payload) in Hi.
Qed.

Lemma loop_array_in messages (st : Locals Payload * World Payload) a :
  In a (mentionsArray (fold_left (forMessage Payload handler) messages st).1) ->
  In a (mentionsArray st.1)
  \/ (In a (mentionAddresses messages) /\ a < length (heap st.2)).
Proof.
  revert st. induction messages as [|m ms IH]; intros st Hi; [now left|].
  cbn [fold_left] in Hi. unfold mentionAddresses. cbn [map concat].
  fold (mentionAddresses ms). rewrite in_app_iff.
  apply IH in Hi as [Hi|[Hi Hlt]].
  - apply forMessage_array_in in Hi. tauto.
  - rewrite (forMessage_heap_length Payload) in Hlt. tauto.
Qed.

End Array.

Lemma Forall_deref (P : IMention Payload -> Prop) (h : list (IMention Payload))
    (refs : list nat) :
  (forall a, In a refs -> exists m, h !! a = Some m /\ P m) ->
  Forall P (deref h refs) /\ length (deref h refs) = length refs.
Proof.
  unfold deref. induction refs as [|r refs IH]; intros Hall.
  - split; [constructor | reflexivity].
  - destruct (Hall r (or_introl eq_refl)) as (m & Hm & HP).
    destruct IH as [IH1 IH2]; [intros a Ha; apply Hall; now right|].
    cbn [omap list_omap]. rewrite Hm. cbn.
    split; [now constructor | now rewrite IH2].
Qed.

(** X6.  The mentions array holds only mention objects of the request, each
    one an object of the heap.  When the request holds no mention object
    twice, every mention that a proactive activity carries has an id and a
    name that are not empty, and the array entries are all carried. *)
Theorem carried_mentions_are_resolved (this : MsteamsMiddleware Payload)
    (messages : list (IMessage Payload)) (w : World Payload) :
  let l := (composed this messages w).1 in
  let found := deref (heap (composed this messages w).2) (mentionsArray l) in
  (forall a, In a (mentionsArray l) ->
     In a (mentionAddresses messages) /\ a < length (heap w))
  /\ (NoDup (mentionAddresses messages) ->
      Forall (fun m => id (mentioned m) <> "" /\ name (mentioned m) <> "")
        found
      /\ length found = length (mentionsArray l)).
Proof.
  intros l found.
  assert (Hin : forall a, In a (mentionsArray l) ->
            In a (mentionAddresses messages) /\ a < length (heap w)).
  { intros a Hi. subst l. unfold composed in Hi.
    apply loop_array_in in Hi as [[]|Hi]. exact Hi. }
  split; [exact Hin|].
  intros Hd. subst found. apply Forall_deref.
  intros a Ha. destruct (Hin a Ha) as [Haddr Hlt].
  destruct (lookup_lt_is_Some_2 _ _ Hlt) as [m Hm].
  destruct (composed_once Payload this messages w a m Hd Haddr Hm) as [E1 E2].
  exists (resolveMention (botActivityHandler this) m). split; [exact E1|].
  apply (bothFound_decide Payload). now apply E2.
Qed.

End Delivery.

(** An adapter that cannot create the connector client, and one that
    cannot create the conversation. *)
Definition adapterNoClient : BotFrameworkAdapter string :=
  {| createConnectorClient _ := Some badRequest;
     createConversation _ _ := inr {| response_id := "T1" |};
     continueConversation _ _ := None;
     sendTraceActivity _ := None;
     sendActivity _ := None |}.

Definition adapterNoConversation : BotFrameworkAdapter string :=
  {| createConnectorClient _ := None;
     createConversation _ _ := inl badRequest;
     continueConversation _ _ := None;
     sendTraceActivity _ := None;
     sendActivity _ := None |}.

Definition opsWith (adapter : BotFrameworkAdapter string)
    : MsteamsMiddleware string :=
  {| botFrameworkAdapter := adapter;
     botActivityHandler := handlerOf [ops] {[ "C1" := "https://svc/a" ]} |}.


Lemma creation_failure_is_contained_witness :
  let target := proactiveTo {| id := ""; name := "ops" |} in
  calls (send (opsWith adapterNoClient) target [plainText "hi"] (world [])).2
  = [CreateConnectorClient "https://svc/a"]
  /\ unhandled
       (send (opsWith adapterNoClient) target [plainText "hi"] (world [])).2
     = []
  /\ length
       (calls (send (opsWith adapterNoConversation) target [plainText "hi"]
                 (world [])).2) = 2
  /\ log (send (opsWith adapterNoConversation) target [plainText "hi"]
            (world [])).2 =
     [Start "send"; Log INFO SendProactiveMessage;
      Log INFO (TargetChannelInfo (Some ops));
      Log INFO (ServiceUrlInfo "https://svc/a");
      Log ERROR (ErrorStack badRequest); End "send"].
Proof.
  cbv zeta.
  assert (Hsize : size (getServiceUrl
                          (handlerOf [ops] {[ "C1" := "https://svc/a" ]})) <> 0)
    by (vm_compute; discriminate).
  destruct (creation_failure_is_contained string (opsWith adapterNoClient)
              (proactiveTo {| id := ""; name := "ops" |}) [plainText "hi"]
              (world []) ops eq_refl) as [Hclient _];
    [left; discriminate | exact Hsize | reflexivity
    | vm_compute; discriminate |].
  destruct (Hclient badRequest eq_refl) as (H1 & _ & H2).
  destruct (creation_failure_is_contained string
              (opsWith adapterNoConversation)
              (proactiveTo {| id := ""; name := "ops" |}) [plainText "hi"]
              (world []) ops eq_refl) as [_ Hconversation];
    [left; discriminate | exact Hsize | reflexivity
    | vm_compute; discriminate |].
  destruct (Hconversation badRequest eq_refl eq_refl) as (H3 & H4 & _).
  split; [exact H1|]. split; [exact H2|]. split; [|exact H4].
  rewrite H3. reflexivity.
Defined.

Lemma carried_mentions_are_resolved_witness :
  let request := [mentioning (plainText "hi") [0; 1]] in
  let before :=
    world [mentionOf {| id := ""; name := "general" |};
           mentionOf {| id := "C9"; name := "" |}] in
  let l := (composed thisGeneral request before).1 in
  Forall (fun m => id (mentioned m) <> "" /\ name (mentioned m) <> "")
    (deref (heap (composed thisGeneral request before).2) (mentionsArray l))
  /\ length (deref (heap (composed thisGeneral request before).2)
               (mentionsArray l)) = 1.
Proof.
  cbv zeta.
  destruct (carried_mentions_are_resolved string thisGeneral
              [mentioning (plainText "hi") [0; 1]]
              (world [mentionOf {| id := ""; name := "general" |};
                      mentionOf {| id := "C9"; name := "" |}]))
    as [_ Hresolved].
  destruct Hresolved as [Hall Hlength].
  - apply NoDup_cons. split; [|apply NoDup_singleton].
    rewrite list_elem_of_In. intros Hin. vm_compute in Hin.
    intuition discriminate.
  - split; [exact Hall|]. rewrite Hlength. reflexivity.
Defined.

Lemma split_loses_nothing_witness :
  exists unit first,
    composeActivity "hi" [adaptiveCard "X"; adaptiveCard "Y"] = Some unit
    /\ firstActivity "hi" [adaptiveCard "X"; adaptiveCard "Y"] [] = Some first
    /\ carried string (Some first)
       ++ carried string
            (restActivity "hi" [adaptiveCard "X"; adaptiveCard "Y"] [])
       = [adaptiveCard "X"; adaptiveCard "Y"]
    /\ attachments first = None.
Proof.
  destruct (split_loses_nothing string "hi"
              [adaptiveCard "X"; adaptiveCard "Y"] [])
    as (unit & first & H1 & H2 & H3 & _ & H5 & _ & H7);
    [left; discriminate|].
  exists unit, first. repeat split; try assumption.
  apply H7. rewrite H3. vm_compute in H1. injection H1 as <-. discriminate.
Defined.

(** * The adapter that the constructor builds (lines 45-49)

    Up to here the promise of [continueConversation] settles as the adapter
    record says.  The adapter that [send] calls is the one the constructor
    builds: a [BotFrameworkAdapter] of the SDK whose [onTurnError] is
    [processTurnError] (line 49).  The SDK runs the logic handed to
    [continueConversation] as a turn; an error that the logic throws is
    passed to [onTurnError], and the promise of [continueConversation]
    rejects only when that handler rejects.  The logic of both calls of
    [send] is [turnContext.sendActivity(activity)]; what that push answers
    is the parameter [push] of this part. *)

Arguments Normal {A} a.
Arguments ReturnVoid {A}.
Arguments Throw {A} e.

Section Turn.

Variable Payload : Type.
Context `{JsAny Payload}.

Notation "x <- m ;; k" := (bind Payload m (fun x => k))
  (at level 100, m at level 99, k at level 200, right associativity).
Notation "m ;; k" := (bind Payload m (fun _ => k))
  (at level 100, k at level 200, right associativity).

(** What [turnContext.sendActivity] answers in the turn resumed at a
    reference. *)
Variable push :
  ConversationReference -> option (Activity Payload) -> option Error.

(** The turn context that [continueConversation] makes from the reference. *)
Definition continuationTurn (r : ConversationReference) : TurnContext Payload :=
  {| turn_activity :=
       {| activity_id := activityId r; channelId := ref_channelId r;
          serviceUrl := ref_serviceUrl r; conversation := ref_conversation r;
          text := None; attachments := None; entities := None |} |}.

(** The turn pipeline of the adapter: the logic runs, and what it throws
    goes to [onTurnError], that is to [processTurnError]. *)
Definition runTurn (this : MsteamsMiddleware Payload)
    (turn : TurnContext Payload) (logic : M Payload unit) : M Payload unit :=
  fun w =>
    match logic w with
    | (Throw e, w') =>
        match processTurnError this turn e w' with
        | (Resolved, w'') => (Normal tt, w'')
        | (Rejected e', w'') => (Throw e', w'')
        end
    | r => r
    end.

(** [continueConversation(reference, async (turnContext) =>
    { await turnContext.sendActivity(activity); })] on that adapter. *)
Definition continueConversationTurn (this : MsteamsMiddleware Payload)
    (r : ConversationReference) (activity : option (Activity Payload))
    : M Payload unit :=
  runTurn this (continuationTurn r)
    (await Payload (ContinueConversation r activity) (push r activity)).

(** A promise that nobody awaits.  Its computation goes on when the
    function that started it has returned; a rejection is then handled by
    nobody. *)
Definition Pending : Type := M Payload unit.

Definition settle (p : option Pending) (w : World Payload) : World Payload :=
  match p with
  | Some p =>
      match p w with
      | (Throw e, w') => rejectedUnawaited e w'
      | (_, w') => w'
      end
  | None => w
  end.

(** [try]/[catch]/[finally] around a body that yields a value. *)
Definition tryCatchFinally {A} (body : M Payload A)
    (handler : Error -> M Payload A) (fin : M Payload unit) : M Payload A :=
  fun w =>
    let '(c, w1) :=
      match body w with
      | (Throw e, w') => handler e w'
      | r => r
      end in
    match fin w1 with
    | (Normal _, w2) => (c, w2)
    | (ReturnVoid, w2) => (ReturnVoid, w2)
    | (Throw e, w2) => (Throw e, w2)
    end.

(** Lines 177-186: the resumption is awaited. *)
Definition sendConversationTurn (this : MsteamsMiddleware Payload)
    (turn : TurnContext Payload) (activity : Activity Payload)
    : M Payload unit :=
  logger_info Payload SendConversationMessage ;;
  let conversationReference := getConversationReference (turn_activity turn) in
  continueConversationTurn this conversationReference (Some activity).

(** Lines 188-280: the resumption of line 278 is started and left
    pending. *)
Definition sendProactiveTurn (this : MsteamsMiddleware Payload)
    (contextData : IChatContextData Payload) (l : Locals Payload)
    : M Payload (option Pending) :=
  let handler := botActivityHandler this in
  let adapter := botFrameworkAdapter this in
  logger_info Payload SendProactiveMessage ;;
  (if Nat.eqb (size (getServiceUrl handler)) 0
   then logger_error Payload ServiceUrlCacheEmpty ;; return_void Payload
   else ret Payload tt) ;;
  let channelInfo := findChannel handler (channel contextData) in
  logger_info Payload (TargetChannelInfo channelInfo) ;;
  match channelInfo with
  | None =>
      logger_error Payload (ChannelDoesNotExist (channel contextData)) ;;
      return_void Payload
  | Some channelInfo =>
      let url := findServiceUrl handler (id channelInfo) in
      logger_info Payload (ServiceUrlInfo url) ;;
      (if isEmptyString url
       then logger_error Payload (ServiceUrlDoesNotExist channelInfo) ;;
            return_void Payload
       else ret Payload tt) ;;
      await Payload (CreateConnectorClient url)
        (createConnectorClient adapter url) ;;
      h <- getHeap Payload ;;
      let entities := deref h (mentionsArray l) in
      let first := firstActivity (textMessage l) (attachmentsArray l) entities in
      let conversationParameters :=
        {| params_isGroup := true; channelData_channel := channelInfo;
           params_activity := first |} in
      response <- await_value Payload
                    (CreateConversation url conversationParameters)
                    (createConversation adapter url conversationParameters) ;;
      let rest := restActivity (textMessage l) (attachmentsArray l) entities in
      conversationReference <-
        match first with
        | Some a => ret Payload (threadReference a response url)
        | None => throw Payload (TypeError "Cannot read properties of null")
        end ;;
      ret Payload (Some (continueConversationTurn this conversationReference rest))
  end.

(** Lines 112-282. *)
Definition sendBodyTurn (this : MsteamsMiddleware Payload)
    (contextData : IChatContextData Payload)
    (messages : list (IMessage Payload)) : M Payload (option Pending) :=
  l <- forMessages Payload (botActivityHandler this) messages ;;
  match composeActivity (textMessage l) (attachmentsArray l) with
  | None => logger_warn Payload EmptyMessage ;; ret Payload None
  | Some activity =>
      match liveContext contextData with
      | Some turn => sendConversationTurn this turn activity ;; ret Payload None
      | None => sendProactiveTurn this contextData l
      end
  end.

(** [send] on the adapter of the constructor: the promise of [send]
    settles when its body is done; what it left pending settles after
    that. *)
Definition sendTurn (this : MsteamsMiddleware Payload)
    (contextData : IChatContextData Payload)
    (messages : list (IMessage Payload))
    : World Payload -> Outcome * World Payload :=
  fun w =>
    match
      (logger Payload (Start "send") ;;
       tryCatchFinally (sendBodyTurn this contextData messages)
         (fun err => logger_error Payload (ErrorStack err) ;; ret Payload None)
         (logger Payload (End "send"))) w
    with
    | (Throw e, w') => (Rejected e, w')
    | (Normal pending, w') => (Resolved, settle pending w')
    | (ReturnVoid, w') => (Resolved, w')
    end.

(** What a transport call answered: the error, if it failed. *)
Definition failure (this : MsteamsMiddleware Payload)
    (c : TransportCall Payload) : option Error :=
  let adapter := botFrameworkAdapter this in
  match c with
  | CreateConnectorClient url => createConnectorClient adapter url
  | CreateConversation url p =>
      match createConversation adapter url p with
      | inl e => Some e
      | inr _ => None
      end
  | ContinueConversation r activity => push r activity
  | SendTraceActivity e => sendTraceActivity adapter e
  | SendActivity t => sendActivity adapter t
  end.

Ltac unfold_turn :=
  unfold sendTurn, tryCatchFinally, sendBodyTurn, sendProactiveTurn,
    sendConversationTurn, settle, continueConversationTurn, runTurn,
    processTurnError, send, async, try_catch_finally, sendBody, sendProactive,
    sendConversation, forMessages, bind, ret, return_void, throw, await,
    await_value, unawaited, getHeap, logger_info, logger_error, logger_warn,
    logger;
  match goal with
  | |- context [fold_left (forMessage _ (botActivityHandler ?t)) ?ms
                  (initialLocals _, logged (Start "send") ?w)] =>
      fold (composed t ms w)
  end.

Ltac innermost x :=
  lazymatch x with
  | context [match ?y with _ => _ end] => innermost y
  | _ => destruct x eqn:?
  end.

Ltac by_paths :=
  repeat (match goal with
          | |- context [match ?x with _ => _ end] => innermost x
          end;
          cbn [log calls unhandled heap logged called rejectedUnawaited
               fst snd]).

(** While no push fails, a send on the adapter of the constructor is the
    send on an adapter whose [continueConversation] resolves. *)
Lemma sendTurn_agrees (this : MsteamsMiddleware Payload)
    (contextData : IChatContextData Payload)
    (messages : list (IMessage Payload)) (w : World Payload) :
  (forall r activity, push r activity = None) ->
  (forall r activity,
     continueConversation (botFrameworkAdapter this) r activity = None) ->
  sendTurn this contextData messages w = send this contextData messages w.
Proof.
  intros Hpush Hresolves. unfold_turn.
  destruct (composed this messages w) as [l w1]. cbn [fst snd].
  by_paths; rewrite ?Hpush, ?Hresolves in *; try discriminate;
    cbn [fst snd]; rewrite ?Hpush, ?Hresolves; try reflexivity;
    congruence.
Qed.

(** [In e (x :: l ++ y :: ...)] by search. *)
Ltac in_entries :=
  repeat first [rewrite in_app_iff | progress cbn [In]]; tauto.

(** The call is one of those added; its failure is the one of the path. *)
Ltac logged_failure :=
  let c := fresh "c" in
  let e := fresh "e" in
  let Hin := fresh "Hin" in
  let Ha := fresh "Ha" in
  intros c e Hin; cbn [In] in Hin;
  repeat (destruct Hin as [Hin|Hin];
          [subst c; cbn [failure];
           repeat match goal with
                  | E : ?x = _ |- context [?x = Some _] => rewrite E
                  | E : ?x = _
                    |- context [match ?x with _ => _ end = Some _] => rewrite E
                  end;
           intros Ha;
           first [discriminate Ha | injection Ha as <-; in_entries]
          |]);
  contradiction.

Lemma processTurnError_logs (this : MsteamsMiddleware Payload)
    (turn : TurnContext Payload) (error : Error) (w : World Payload) :
  let p := processTurnError this turn error w in
  p.1 = Resolved /\ unhandled p.2 = unhandled w
  /\ exists entries added,
       log p.2 = log w ++ entries /\ calls p.2 = calls w ++ added
       /\ In (Log ERROR (ErrorStack error)) entries
       /\ forall c e, In c added -> failure this c = Some e ->
            In (Log ERROR (ErrorStack e)) entries.
Proof.
  cbv zeta.
  unfold processTurnError, async, try_catch_finally, bind, await,
    logger_error, logger.
  by_paths; (split; [reflexivity|]); (split; [reflexivity|]);
    rewrite <- ?app_assoc; cbn [app];
    eexists; eexists;
    (split; [reflexivity|]); (split; [reflexivity|]);
    (split; [cbn; tauto|]).
  all: logged_failure.
Qed.

(** C10.  [send] never throws and its promise never rejects, whatever the
    promise of a transport call answers; on the adapter that the
    constructor builds, whatever the request, the directory and the answers
    of the transport are, the promise of [send] resolves, no rejection is
    left to a promise that nobody holds, and for every transport call that
    failed (the connector client, the creation of the conversation, the
    push of a resumed conversation, awaited or not, and the two sends of
    the error handler) the stack of its error is among the entries that
    the send logged.  Likewise [processTurnError] resolves, logs the stack
    of the error it is given and the stack of the error of a send of its
    own that failed, and leaves no rejection behind. *)
Theorem send_contains_every_error (this : MsteamsMiddleware Payload)
    (contextData : IChatContextData Payload)
    (messages : list (IMessage Payload)) (w : World Payload) :
  let r := sendTurn this contextData messages w in
  (send this contextData messages w).1 = Resolved
  /\ r.1 = Resolved
  /\ unhandled r.2 = unhandled w
  /\ (exists entries added,
        log r.2 = log w ++ entries
        /\ calls r.2 = calls w ++ added
        /\ forall c e,
             In c added -> failure this c = Some e ->
             In (Log ERROR (ErrorStack e)) entries)
  /\ (forall turn error,
        let p := processTurnError this turn error w in
        p.1 = Resolved
        /\ unhandled p.2 = unhandled w
        /\ exists entries added,
             log p.2 = log w ++ entries
             /\ calls p.2 = calls w ++ added
             /\ In (Log ERROR (ErrorStack error)) entries
             /\ forall c e,
                  In c added -> failure this c = Some e ->
                  In (Log ERROR (ErrorStack e)) entries).
Proof.
  intros r. subst r.
  split; [apply send_never_rejects|].
  split; [|split; [|split; [|intros turn error; apply processTurnError_logs]]].
  - unfold_turn. destruct (composed this messages w) as [l w1].
    cbn [fst snd]. by_paths; reflexivity.
  - destruct (composed_calls Payload this messages w) as [_ Hu].
    unfold_turn. destruct (composed this messages w) as [l w1].
    cbn [fst snd] in *. by_paths; exact Hu.
  - destruct (composed_calls Payload this messages w) as [Hc _].
    pose proof (composed_log Payload this messages w) as Hl.
    unfold_turn. destruct (composed this messages w) as [l w1].
    cbn [fst snd] in *.
    by_paths; rewrite Hc, Hl, <- ?app_assoc; cbn [app];
      eexists; eexists;
      (split; [reflexivity|]);
      (split; [first [reflexivity | symmetry; apply app_nil_r]|]).
    all: logged_failure.
Qed.

End Turn.

Arguments sendTurn {Payload H} push this contextData messages _.

(** The push to the thread of a proactive message fails: the send has
    resolved by then, and the error handler of the adapter logs the error
    and its stack and sends the trace activity and the apology. *)
Lemma send_contains_every_error_witness :
  let r :=
    sendTurn (fun _ _ => Some badRequest) thisOps
      (proactiveTo {| id := ""; name := "ops" |})
      [richCard "A"; richCard "B"] (world []) in
  r.1 = Resolved
  /\ unhandled r.2 = []
  /\ In (Log ERROR (ErrorStack badRequest)) (log r.2)
  /\ log r.2 =
     [Start "send"; Log INFO SendProactiveMessage;
      Log INFO (TargetChannelInfo (Some ops));
      Log INFO (ServiceUrlInfo "https://svc/a"); End "send";
      Start "processTurnError"; Log ERROR (UnhandledError badRequest);
      Log ERROR (ErrorStack badRequest); End "processTurnError"].
Proof.
  cbv zeta.
  destruct (send_contains_every_error string (fun _ _ => Some badRequest)
              thisOps (proactiveTo {| id := ""; name := "ops" |})
              [richCard "A"; richCard "B"] (world []))
    as (_ & Hresolved & Hunhandled & (entries & added & Hlog & Hcalls & Hfailed)
        & _).
  split; [exact Hresolved|]. split; [exact Hunhandled|].
  split; [|reflexivity].
  rewrite Hlog. cbn [log world app].
  apply (Hfailed
           (ContinueConversation
              {| activityId := None; ref_channelId := None;
                 ref_serviceUrl := Some "https://svc/a";
                 ref_conversation :=
                   Some {| isGroup := Some true; conversation_id := "T1";
                           conversationType := Some "channel" |} |}
              (Some (setEntities (attachmentsActivity [adaptiveCard "B"]) []))));
    [|reflexivity].
  cbn [calls world app] in Hcalls. rewrite <- Hcalls. vm_compute. auto.
Defined.

(** * The bot (CommonBot.ts)

    The listeners, routers and middleware are plugins whose code is loaded
    at run time: [require] and the constructor of the plugin class are an
    answer of the Node runtime, as are [fs.existsSync] and [__dirname].
    [toUpperCase] is modelled on the ASCII letters.  The log and the calls
    to the runtime and to the plugins are recorded in the state.

    A plugin is handed the bot and its code is not part of these sources.
    What a plugin itself may write to the bot is not modelled: the state of
    the bot below is what [listen] and [route] write, and no statement is
    made about the fields that they leave alone. *)

Module CommonBot.

Definition toUpperCase (c : ascii) : ascii :=
  let n := nat_of_ascii c in
  if Nat.leb 97 n && Nat.leb n 122 then ascii_of_nat (n - 32) else c.

(** [s.substring(0, 1).toUpperCase()] followed by [s.substring(1)]. *)
Definition capitalize (s : string) : string :=
  match s with
  | EmptyString => EmptyString
  | String c rest => String (toUpperCase c) rest
  end.

Section Bot.

(** [Middleware], [IMessageMatcherFunction], [IMessageHandlerFunction] and
    [IRouteHandlerFunction]. *)
Variables Middleware Matcher Handler RouteHandler : Type.

(** The one property of the option that the bot reads. *)
Record IOption := { chatTool_type : string }.

Record Listener := { listener_listen : Matcher -> Handler -> option Error }.

Record Router := { router_route : string -> RouteHandler -> option Error }.

Record CommonBot := {
  botOption : IOption;
  middleware : option Middleware;
  listeners : list Listener;
  router : option Router
}.

(** Lines 323-328. *)
Definition constructor (o : IOption) : CommonBot :=
  {| botOption := o; middleware := None; listeners := []; router := None |}.

Definition getOption (this : CommonBot) : IOption := botOption this.

Definition setOption (this : CommonBot) (o : IOption) : CommonBot :=
  {| botOption := o; middleware := middleware this;
     listeners := listeners this; router := router this |}.

Definition getMiddleware (this : CommonBot) : option Middleware :=
  middleware this.

Definition setMiddleware (this : CommonBot) (m : Middleware) : CommonBot :=
  {| botOption := botOption this; middleware := Some m;
     listeners := listeners this; router := router this |}.

Definition getListeners (this : CommonBot) : list Listener := listeners this.

(** [this.listeners.push(listener)] *)
Definition addListener (this : CommonBot) (l : Listener) : CommonBot :=
  {| botOption := botOption this; middleware := middleware this;
     listeners := listeners this ++ [l]; router := router this |}.

Definition setRouter (this : CommonBot) (r : Router) : CommonBot :=
  {| botOption := botOption this; middleware := middleware this;
     listeners := listeners this; router := Some r |}.

Definition geRouter (this : CommonBot) : option Router := router this.

(** The Node runtime: [__dirname], [fs.existsSync], and what [require] of a
    plugin module followed by [new] of its class answers. *)
Record Node := {
  dirname : string;
  existsSync : string -> bool;
  newListener : string -> Error + Listener;
  newRouter : string -> Error + Router
}.

Inductive Message :=
| UnsupportedChatTool (chatToolType : string)
| ListenerFileMissing (file : string)
| RouterFileMissing (file : string)
| Stack (e : Error).

Inductive Entry :=
| Started (fn : string)
| Ended (fn : string)
| Failed (m : Message).

Inductive Event :=
| Required (module : string)
| Listened (l : Listener)
| Routed (r : Router) (basePath : string).

Record State := {
  bot : CommonBot;
  journal : list Entry;
  trace : list Event
}.

Definition B (A : Type) : Type := State -> Completion A * State.

Definition unit_ {A} (a : A) : B A := fun s => (Normal a, s).

Definition then_ {A C} (m : B A) (k : A -> B C) : B C :=
  fun s =>
    match m s with
    | (Normal a, s') => k a s'
    | (ReturnVoid, s') => (ReturnVoid, s')
    | (Throw e, s') => (Throw e, s')
    end.

Notation "x <- m ;; k" := (then_ m (fun x => k))
  (at level 100, m at level 99, k at level 200, right associativity).
Notation "m ;; k" := (then_ m (fun _ => k))
  (at level 100, k at level 200, right associativity).

Definition raise {A} (e : Error) : B A := fun s => (Throw e, s).

Definition this_ : B CommonBot := fun s => (Normal (bot s), s).

Definition update (f : CommonBot -> CommonBot) : B unit :=
  fun s =>
    (Normal tt, {| bot := f (bot s); journal := journal s; trace := trace s |}).

Definition note (e : Entry) : B unit :=
  fun s =>
    (Normal tt,
     {| bot := bot s; journal := journal s ++ [e]; trace := trace s |}).

Definition logger_error (m : Message) : B unit := note (Failed m).

(** A call whose answer is awaited, or which is synchronous. *)
Definition call (ev : Event) (answer : option Error) : B unit :=
  fun s =>
    let s' := {| bot := bot s; journal := journal s;
                 trace := trace s ++ [ev] |} in
    match answer with
    | None => (Normal tt, s')
    | Some e => (Throw e, s')
    end.

Definition call_value {A} (ev : Event) (answer : Error + A) : B A :=
  fun s =>
    let s' := {| bot := bot s; journal := journal s;
                 trace := trace s ++ [ev] |} in
    match answer with
    | inr a => (Normal a, s')
    | inl e => (Throw e, s')
    end.

Definition try_catch_finally (body : B unit) (handler : Error -> B unit)
    (fin : B unit) : B unit :=
  fun s =>
    let '(c, s1) :=
      match body s with
      | (Throw e, s') => handler e s'
      | r => r
      end in
    match fin s1 with
    | (Normal _, s2) => (c, s2)
    | r => r
    end.

Definition async (body : B unit) : State -> Outcome * State :=
  fun s =>
    match body s with
    | (Throw e, s') => (Rejected e, s')
    | (_, s') => (Resolved, s')
    end.

Definition newError (msg : string) : Error :=
  {| error_name := "Error"; error_message := msg |}.

(** The paths of lines 361-370 and 407-416. *)
Definition pluginDirectory (node : Node) (chatToolType : string) : string :=
  (dirname node ++ "/plugins/" ++ chatToolType)%string.

Definition pluginFile (node : Node) (chatToolType pluginFileName : string)
    : string :=
  (dirname node ++ "/plugins/" ++ chatToolType ++ "/" ++ pluginFileName
   ++ ".js")%string.

Definition pluginModule (chatToolType pluginFileName : string) : string :=
  ("./plugins/" ++ chatToolType ++ "/" ++ pluginFileName)%string.

(** Lines 351-385. *)
Definition listen (node : Node) (matcher : Matcher) (handler : Handler)
    : State -> Outcome * State :=
  async
    (note (Started "listen") ;;
     try_catch_finally
       (this <- this_ ;;
        let chatToolType := chatTool_type (botOption this) in
        let pluginFileName := (capitalize chatToolType ++ "Listener")%string in
        let file := pluginFile node chatToolType pluginFileName in
        listener <-
          (if negb (existsSync node (pluginDirectory node chatToolType)) then
             logger_error (UnsupportedChatTool chatToolType) ;;
             raise (newError "Unsupported chat tool")
           else if negb (existsSync node file) then
             logger_error (ListenerFileMissing file) ;;
             raise (newError ("The required listener file " ++ quoted file
                              ++ " does not exist!")%string)
           else
             call_value (Required (pluginModule chatToolType pluginFileName))
               (newListener node (pluginModule chatToolType pluginFileName))) ;;
        update (fun this => addListener this listener) ;;
        call (Listened listener) (listener_listen listener matcher handler))
       (fun err => logger_error (Stack err))
       (note (Ended "listen"))).

(** Lines 398-430. *)
Definition route (node : Node) (basePath : string) (handler : RouteHandler)
    : State -> Outcome * State :=
  async
    (note (Started "route") ;;
     try_catch_finally
       (this <- this_ ;;
        let chatToolType := chatTool_type (botOption this) in
        let pluginFileName := (capitalize chatToolType ++ "Router")%string in
        let file := pluginFile node chatToolType pluginFileName in
        (if negb (existsSync node (pluginDirectory node chatToolType)) then
           logger_error (UnsupportedChatTool chatToolType) ;;
           raise (newError "Unsupported chat tool")
         else if negb (existsSync node file) then
           logger_error (RouterFileMissing file) ;;
           raise (newError ("The required router file " ++ quoted file
                            ++ " does not exist!")%string)
         else
           r <- call_value (Required (pluginModule chatToolType pluginFileName))
                  (newRouter node (pluginModule chatToolType pluginFileName)) ;;
           update (fun this => setRouter this r)) ;;
        this <- this_ ;;
        match router this with
        | Some r => call (Routed r basePath) (router_route r basePath handler)
        | None => raise (TypeError "Cannot read properties of null")
        end)
       (fun err => logger_error (Stack err))
       (note (Ended "route"))).

Ltac unfold_bot :=
  unfold listen, route, async, try_catch_finally, then_, unit_, raise, this_,
    update, logger_error, note, call, call_value.

(** X9.  [listen] registers nothing when the plugin cannot be had: when
    the directory of the chat tool does not exist, when the listener file
    does not exist, and when loading the listener fails.  In the first two
    cases nothing is loaded at all.  The reason and the stack of the error
    are logged, and the promise resolves. *)
Theorem listen_failure_registers_nothing (node : Node) (matcher : Matcher)
    (handler : Handler) (s : State) :
  let chatToolType := chatTool_type (botOption (bot s)) in
  let pluginFileName := (capitalize chatToolType ++ "Listener")%string in
  let file := pluginFile node chatToolType pluginFileName in
  let module := pluginModule chatToolType pluginFileName in
  let r := listen node matcher handler s in
  (existsSync node (pluginDirectory node chatToolType) = false ->
   r = (Resolved,
        {| bot := bot s;
           journal :=
             journal s
             ++ [Started "listen"; Failed (UnsupportedChatTool chatToolType);
                 Failed (Stack (newError "Unsupported chat tool"));
                 Ended "listen"];
           trace := trace s |}))
  /\ (existsSync node (pluginDirectory node chatToolType) = true ->
      existsSync node file = false ->
      r = (Resolved,
           {| bot := bot s;
              journal :=
                journal s
                ++ [Started "listen"; Failed (ListenerFileMissing file);
                    Failed (Stack (newError
                                     ("The required listener file "
                                      ++ quoted file ++ " does not exist!")));
                    Ended "listen"];
              trace := trace s |}))
  /\ (forall e,
      existsSync node (pluginDirectory node chatToolType) = true ->
      existsSync node file = true ->
      newListener node module = inl e ->
      r = (Resolved,
           {| bot := bot s;
              journal :=
                journal s
                ++ [Started "listen"; Failed (Stack e); Ended "listen"];
              trace := trace s ++ [Required module] |})).
Proof.
  intros chatToolType pluginFileName file module r. subst r.
  split; [|split].
  - intros Hd. unfold_bot. cbn [bot journal trace]. fold chatToolType.
    rewrite Hd. cbn. now rewrite <- !app_assoc.
  - intros Hd Hf. unfold_bot. cbn [bot journal trace].
    fold chatToolType pluginFileName file. rewrite Hd, Hf. cbn.
    now rewrite <- !app_assoc.
  - intros e Hd Hf He. unfold_bot. cbn [bot journal trace].
    fold chatToolType pluginFileName file module. rewrite Hd, Hf, He. cbn.
    now rewrite <- !app_assoc.
Qed.

Lemma listen_loaded (node : Node) (matcher : Matcher) (handler : Handler)
    (s : State) (l : Listener) :
  let chatToolType := chatTool_type (botOption (bot s)) in
  let pluginFileName := (capitalize chatToolType ++ "Listener")%string in
  let module := pluginModule chatToolType pluginFileName in
  existsSync node (pluginDirectory node chatToolType) = true ->
  existsSync node (pluginFile node chatToolType pluginFileName) = true ->
  newListener node module = inr l ->
  listen node matcher handler s =
  (Resolved,
   {| bot := addListener (bot s) l;
      journal :=
        journal s
        ++ Started "listen"
           :: match listener_listen l matcher handler with
              | Some e => [Failed (Stack e)]
              | None => []
              end
        ++ [Ended "listen"];
      trace := trace s ++ [Required module; Listened l] |}).
Proof.
  intros chatToolType pluginFileName module Hd Hf Hl.
  unfold_bot. cbn [bot journal trace].
  fold chatToolType pluginFileName module. rewrite Hd, Hf, Hl. cbn.
  destruct (listener_listen l matcher handler); cbn;
    now rewrite <- ?app_assoc.
Qed.

(** X10.  When the plugin is there and loads, [listen] appends the new
    listener to the listeners of the bot and then calls its [listen] once.
    The listener is registered before that call: it stays registered when
    the call fails, and the failure is caught and its stack logged. *)
Theorem listen_registers_listener (node : Node) (matcher : Matcher)
    (handler : Handler) (s : State) (l : Listener) :
  let chatToolType := chatTool_type (botOption (bot s)) in
  let pluginFileName := (capitalize chatToolType ++ "Listener")%string in
  let module := pluginModule chatToolType pluginFileName in
  let r := listen node matcher handler s in
  existsSync node (pluginDirectory node chatToolType) = true ->
  existsSync node (pluginFile node chatToolType pluginFileName) = true ->
  newListener node module = inr l ->
  r.1 = Resolved
  /\ bot r.2 = addListener (bot s) l
  /\ getListeners (bot r.2) = getListeners (bot s) ++ [l]
  /\ trace r.2 = trace s ++ [Required module; Listened l]
  /\ journal r.2 =
     journal s
     ++ Started "listen"
        :: match listener_listen l matcher handler with
           | Some e => [Failed (Stack e)]
           | None => []
           end
     ++ [Ended "listen"].
Proof.
  intros chatToolType pluginFileName module r Hd Hf Hl. subst r.
  rewrite (listen_loaded node matcher handler s l Hd Hf Hl).
  repeat split.
Qed.

(** X11.  Whatever the runtime and the plugin answer, the promise of
    [listen] resolves, its start mark is the first and its end mark the
    last entry that it logs, and every entry in between reports a failure.
    There is none if and only if the plugin is there, loads, and the call
    to the listener succeeds: no failure passes in silence. *)
Theorem listen_reports_every_failure (node : Node) (matcher : Matcher)
    (handler : Handler) (s : State) :
  let chatToolType := chatTool_type (botOption (bot s)) in
  let pluginFileName := (capitalize chatToolType ++ "Listener")%string in
  let file := pluginFile node chatToolType pluginFileName in
  let module := pluginModule chatToolType pluginFileName in
  let r := listen node matcher handler s in
  r.1 = Resolved
  /\ exists middle,
       journal r.2 = journal s ++ Started "listen" :: middle ++ [Ended "listen"]
       /\ Forall (fun entry => exists m, entry = Failed m) middle
       /\ (middle = [] <->
           existsSync node (pluginDirectory node chatToolType) = true
           /\ existsSync node file = true
           /\ exists l,
                newListener node module = inr l
                /\ listener_listen l matcher handler = None).
Proof.
  intros chatToolType pluginFileName file module r. subst r.
  unfold_bot. cbn [bot journal trace].
  fold chatToolType pluginFileName file module.
  destruct (existsSync node (pluginDirectory node chatToolType)) eqn:Hd;
    [destruct (existsSync node file) eqn:Hf;
       [destruct (newListener node module) as [e|l] eqn:Hn;
          [|cbn; destruct (listener_listen l matcher handler) eqn:Hl]|]|];
    cbn; rewrite <- ?app_assoc; cbn [app];
    (split; [reflexivity|]);
    first [exists []; split; [reflexivity|]
          | eexists [_]; split; [reflexivity|]
          | eexists [_; _]; split; [reflexivity|]];
    (split; [repeat constructor; eexists; reflexivity|]);
    (split;
     [intros E; first [discriminate E | eauto 6]
     |intros (E1 & E2 & l' & E3 & E4); first [reflexivity | congruence]]).
Qed.

(** X12.  When the router plugin is there and loads, [route] sets the
    router of the bot to the new router and then calls it once with the
    base path; the new router stays when that call fails.  When the
    directory of the chat tool or the router file is missing, nothing is
    loaded, the router of the bot is left as it is and no router is called,
    not even the one set before.  When loading fails no router is called
    either.  The promise resolves in every case. *)
Theorem route_sets_the_router (node : Node) (basePath : string)
    (handler : RouteHandler) (s : State) :
  let chatToolType := chatTool_type (botOption (bot s)) in
  let pluginFileName := (capitalize chatToolType ++ "Router")%string in
  let file := pluginFile node chatToolType pluginFileName in
  let module := pluginModule chatToolType pluginFileName in
  let r := route node basePath handler s in
  r.1 = Resolved
  /\ (existsSync node (pluginDirectory node chatToolType) = false
      \/ existsSync node file = false ->
      router (bot r.2) = router (bot s) /\ trace r.2 = trace s)
  /\ (existsSync node (pluginDirectory node chatToolType) = true ->
      existsSync node file = true ->
      match newRouter node module with
      | inl e => trace r.2 = trace s ++ [Required module]
      | inr new =>
          geRouter (bot r.2) = Some new
          /\ trace r.2 = trace s ++ [Required module; Routed new basePath]
      end).
Proof.
  intros chatToolType pluginFileName file module r. subst r.
  unfold_bot. cbn [bot journal trace].
  fold chatToolType pluginFileName file module.
  destruct (existsSync node (pluginDirectory node chatToolType)) eqn:Hd;
    [destruct (existsSync node file) eqn:Hf;
       [destruct (newRouter node module) as [e|new] eqn:Hn|]|];
    cbn;
    try match goal with
        | |- context [router_route ?n ?b ?h] =>
            destruct (router_route n b h); cbn
        end;
    rewrite <- ?app_assoc;
    (split; [reflexivity|]);
    (split;
     [intros [E|E]; first [discriminate E | split; reflexivity]
     |intros E1 E2; first [discriminate E1 | discriminate E2
                          | split; reflexivity | reflexivity]]).
Qed.

(** X13.  Calls of [listen] accumulate: when the plugin is there and
    loads, two calls in a row register two listeners, after those that the
    bot had, whether or not the calls to the listeners succeed. *)
Theorem listen_twice (node : Node) (matcher : Matcher) (handler : Handler)
    (s : State) (l : Listener) :
  let chatToolType := chatTool_type (botOption (bot s)) in
  let pluginFileName := (capitalize chatToolType ++ "Listener")%string in
  let module := pluginModule chatToolType pluginFileName in
  existsSync node (pluginDirectory node chatToolType) = true ->
  existsSync node (pluginFile node chatToolType pluginFileName) = true ->
  newListener node module = inr l ->
  let once := (listen node matcher handler s).2 in
  let twice := (listen node matcher handler once).2 in
  getListeners (bot twice) = getListeners (bot s) ++ [l; l]
  /\ trace twice =
     trace s ++ [Required module; Listened l; Required module; Listened l].
Proof.
  intros chatToolType pluginFileName module Hd Hf Hl once twice.
  assert (Honce : once =
            {| bot := addListener (bot s) l;
               journal := journal once;
               trace := trace s ++ [Required module; Listened l] |}).
  { subst once. now rewrite (listen_loaded node matcher handler s l Hd Hf Hl). }
  assert (Hbot : bot once = addListener (bot s) l) by now rewrite Honce.
  assert (Htrace : trace once = trace s ++ [Required module; Listened l])
    by now rewrite Honce.
  assert (Ho : chatTool_type (botOption (bot once)) = chatToolType)
    by now rewrite Hbot.
  subst twice. rewrite (listen_loaded node matcher handler once l);
    rewrite ?Ho; try assumption.
  cbn [snd bot trace]. rewrite Hbot, Htrace.
  unfold getListeners, addListener. cbn [listeners].
  now rewrite <- !app_assoc.
Qed.

End Bot.

Arguments listen {Middleware Matcher Handler RouteHandler} node matcher handler _.
Arguments route {Middleware Matcher Handler RouteHandler} node basePath handler _.
Arguments bot {Middleware Matcher Handler RouteHandler} s.
Arguments journal {Middleware Matcher Handler RouteHandler} s.
Arguments trace {Middleware Matcher Handler RouteHandler} s.
Arguments listeners {Middleware Matcher Handler RouteHandler} c.
Arguments router {Middleware Matcher Handler RouteHandler} c.
Arguments getListeners {Middleware Matcher Handler RouteHandler} this.
Arguments geRouter {Middleware Matcher Handler RouteHandler} this.
Arguments constructor {Middleware Matcher Handler RouteHandler} o.

(** A runtime with the Microsoft Teams plugin installed under [/app], whose
    listener and router fail when they are called. *)
Definition failing : Error :=
  {| error_name := "Error"; error_message := "listen failed" |}.

Definition teamsListener : Listener unit unit :=
  {| listener_listen _ _ := Some failing |}.

Definition teamsRouter : Router unit :=
  {| router_route _ _ := Some failing |}.

Definition installed : list string :=
  ["/app/plugins/msteams"; "/app/plugins/msteams/MsteamsListener.js";
   "/app/plugins/msteams/MsteamsRouter.js"; "/app/plugins/slack"].

Definition node : Node unit unit unit :=
  {| dirname := "/app";
     existsSync path := existsb (String.eqb path) installed;
     newListener _ := inr teamsListener;
     newRouter _ := inr teamsRouter |}.

Definition fresh (chatToolType : string) : State unit unit unit unit :=
  {| bot := constructor {| chatTool_type := chatToolType |};
     journal := []; trace := [] |}.

Lemma listen_failure_registers_nothing_witness :
  listeners (bot (listen node tt tt (fresh "mattermost")).2)
  = []
  /\ trace (listen node tt tt (fresh "mattermost")).2 = []
  /\ journal (listen node tt tt (fresh "slack")).2 =
     [Started "listen";
      Failed (ListenerFileMissing "/app/plugins/slack/SlackListener.js");
      Failed (Stack (newError
                       ("The required listener file "
                        ++ quoted "/app/plugins/slack/SlackListener.js"
                        ++ " does not exist!")));
      Ended "listen"].
Proof.
  destruct (listen_failure_registers_nothing unit unit unit unit node tt tt
              (fresh "mattermost")) as (Hdir & _ & _).
  destruct (listen_failure_registers_nothing unit unit unit unit node tt tt
              (fresh "slack")) as (_ & Hfile & _).
  rewrite (Hdir eq_refl), (Hfile eq_refl eq_refl).
  repeat split.
Defined.

Lemma listen_registers_listener_witness :
  getListeners
    (bot (listen node tt tt (fresh "msteams")).2)
  = [teamsListener]
  /\ journal (listen node tt tt (fresh "msteams")).2 =
     [Started "listen"; Failed (Stack failing); Ended "listen"].
Proof.
  destruct (listen_registers_listener unit unit unit unit node tt tt
              (fresh "msteams") teamsListener eq_refl eq_refl eq_refl)
    as (_ & _ & Hlisteners & _ & Hjournal).
  split; [exact Hlisteners | exact Hjournal].
Defined.

Lemma listen_twice_witness :
  getListeners
    (bot
       (listen node tt tt
          (listen node tt tt (fresh "msteams")).2).2)
  = [teamsListener; teamsListener].
Proof.
  destruct (listen_twice unit unit unit unit node tt tt (fresh "msteams")
              teamsListener eq_refl eq_refl eq_refl) as [Hlisteners _].
  exact Hlisteners.
Defined.

Lemma route_sets_the_router_witness :
  geRouter
    (bot (route node "/api" tt (fresh "msteams")).2)
  = Some teamsRouter
  /\ router
       (bot (route node "/api" tt (fresh "slack")).2)
     = None.
Proof.
  destruct (route_sets_the_router unit unit unit unit node "/api" tt
              (fresh "msteams")) as (_ & _ & Hloaded).
  destruct (Hloaded eq_refl eq_refl) as [Hrouter _].
  destruct (route_sets_the_router unit unit unit unit node "/api" tt
              (fresh "slack")) as (_ & Hmissing & _).
  destruct Hmissing as [Hsame _]; [right; reflexivity|].
  split; [exact Hrouter | exact Hsame].
Defined.

End CommonBot.
